(** * jogger: a JSON log formatter

    Shallow embedding of [jogger/jogger.py] and the properties of its
    field-selection and merge algorithm.

    Layout: Python values and dictionaries, the regular-expression scan used
    by [parse], the services of the host logging library, the value encoder,
    the formatter, and then the lemmas and theorems. *)

From Stdlib Require Import ZArith Ascii String List Bool Lia.
From stdpp Require Import base option strings list gmap pretty.

Set Warnings "-register-all".
Local Open Scope string_scope.
Local Open Scope list_scope.

(** ** Python values *)

(** Exceptions, by class.  [BaseExceptionOnly] stands for the classes that
    derive from [BaseException] but not from [Exception]
    (KeyboardInterrupt, SystemExit, GeneratorExit). *)
Inductive exn :=
| TypeError
| ValueError
| AttributeError
| KeyError
| ImportError
| OtherException (name : string)
| BaseExceptionOnly (name : string).

Definition is_Exception (e : exn) : bool :=
  match e with
  | BaseExceptionOnly _ => false
  | _ => true
  end.

(** The outcome of a call: a value or a raised exception. *)
Inductive result (A : Type) :=
| Ok (a : A)
| Raise (e : exn).
Arguments Ok {A} a.
Arguments Raise {A} e.

#[global] Instance result_ret : MRet result := fun A a => Ok a.
#[global] Instance result_bind : MBind result := fun A B f r =>
  match r with
  | Ok a => f a
  | Raise e => Raise e
  end.

Definition is_Ok {A} (r : result A) : bool :=
  match r with
  | Ok _ => true
  | Raise _ => false
  end.

(** Dictionary keys, up to the equality Python compares keys with.
    Attribute names are strings; the source also allows numeric keys on the
    record (comment in [merge_record_extra]).  [True] and [False] are the
    keys [1] and [0], as [True == 1] and [False == 0]; [None] is a key of
    its own. *)
Inductive key :=
| KStr (s : string)
| KInt (n : Z)
| KNone.

#[global] Instance key_eq_dec : EqDecision key.
Proof. solve_decision. Defined.

(** Dictionaries are objects with identity: a value refers to one by its
    location in the heap. *)
Definition loc := positive.

(** A date, datetime or time object, identified by the text its
    [isoformat()] method returns. *)
Record temporal := { isoformat : string }.

(** A traceback object, identified by the entries that
    [traceback.format_tb] returns for it. *)
Record traceback := { format_tb : list string }.

(** An instance of a user-defined class: [obj_str] is the outcome of
    [str(obj)], [obj_bool] its truth value. *)
Record pyobj := {
  obj_class : string;
  obj_str : result string;
  obj_bool : bool
}.

Inductive value :=
| VNone
| VBool (b : bool)
| VInt (n : Z)
| VFloat (bits : Z)           (* an IEEE double, by its bits *)
| VStr (s : string)
| VTuple (items : list value)
| VDict (l : loc)             (* isinstance(v, dict) *)
| VTemporal (t : temporal)    (* isinstance(v, (date, datetime, time)) *)
| VTraceback (tb : traceback) (* istraceback(v) *)
| VException (o : pyobj)      (* isinstance(v, Exception) *)
| VClass (name : string)      (* type(v) == type *)
| VObject (o : pyobj).        (* anything else *)

(** ** Ordered dictionaries

    A Python [dict] (and [OrderedDict]) keeps its keys in insertion order:
    assigning to a present key replaces the value in place, assigning to an
    absent key appends. *)
Definition odict (A : Type) := list (key * A).

Fixpoint od_get {A} (k : key) (d : odict A) : option A :=
  match d with
  | [] => None
  | (k', v) :: d' => if decide (k' = k) then Some v else od_get k d'
  end.

Definition od_mem {A} (k : key) (d : odict A) : bool :=
  match od_get k d with
  | Some _ => true
  | None => false
  end.

Fixpoint od_set {A} (k : key) (v : A) (d : odict A) : odict A :=
  match d with
  | [] => [(k, v)]
  | (k', v') :: d' =>
      if decide (k' = k) then (k', v) :: d' else (k', v') :: od_set k v d'
  end.

(** [d.update(src)] *)
Definition od_update {A} (d src : odict A) : odict A :=
  fold_left (fun acc kv => od_set kv.1 kv.2 acc) src d.

(** [dict(zip(names, names))] *)
Definition od_of_names (names : list key) : odict key :=
  od_update [] (map (fun k => (k, k)) names).

(** The keys of a dictionary are pairwise distinct. *)
Fixpoint od_wfb {A} (d : odict A) : bool :=
  match d with
  | [] => true
  | (k, _) :: d' => negb (od_mem k d') && od_wfb d'
  end.

Definition od_wf {A} (d : odict A) : Prop := od_wfb d = true.

Definition pydict := odict value.
Abbreviation heap := (gmap loc pydict).

(** ** Truth values and strings *)

(** [bool(v)], as used by [if v] and [not v]. *)
Definition truthy (h : heap) (v : value) : bool :=
  match v with
  | VNone => false
  | VBool b => b
  | VInt n => negb (n =? 0)%Z
  | VFloat bits => negb ((bits =? 0)%Z || (bits =? 2 ^ 63)%Z)
  | VStr s => negb (String.eqb s "")
  | VTuple items => match items with [] => false | _ => true end
  | VDict l => match h !! l with Some (_ :: _) => true | _ => false end
  | VTemporal _ | VTraceback _ | VClass _ => true
  | VException o | VObject o => obj_bool o
  end.

(** [hasattr(key, "startswith") and key.startswith('_')] *)
Definition key_startswith_underscore (k : key) : bool :=
  match k with
  | KStr (String c _) => Ascii.eqb c "_"%char
  | _ => false
  end.

(** White space, as [str.strip()] removes it.  A string is the sequence of
    the bytes of its UTF-8 encoding, so a white-space character is one, two
    or three bytes long.  The ASCII ones are U+0009 to U+000D, U+001C to
    U+001F and the space. *)
Definition is_space (c : ascii) : bool :=
  let n := nat_of_ascii c in
  (((9 <=? n) && (n <=? 13)) || ((28 <=? n) && (n <=? 32)))%nat.

(** U+0085 and U+00A0. *)
Definition is_space2 (a b : ascii) : bool :=
  ((nat_of_ascii a =? 194) &&
   ((nat_of_ascii b =? 133) || (nat_of_ascii b =? 160)))%nat.

(** U+1680, U+2000 to U+200A, U+2028, U+2029, U+202F, U+205F and U+3000. *)
Definition is_space3 (a b c : ascii) : bool :=
  let x := nat_of_ascii a in
  let y := nat_of_ascii b in
  let z := nat_of_ascii c in
  (((x =? 225) && (y =? 154) && (z =? 128))
   || ((x =? 226) && (y =? 128) &&
       (((128 <=? z) && (z <=? 138)) || (z =? 168) || (z =? 169)
        || (z =? 175)))
   || ((x =? 226) && (y =? 129) && (z =? 159))
   || ((x =? 227) && (y =? 128) && (z =? 128)))%nat.

(** The bytes behind a white-space character at the head of [s]. *)
Definition space_prefix (s : list ascii) : option (list ascii) :=
  match s with
  | a :: s1 =>
      if is_space a then Some s1
      else match s1 with
           | b :: s2 =>
               if is_space2 a b then Some s2
               else match s2 with
                    | c :: s3 => if is_space3 a b c then Some s3 else None
                    | [] => None
                    end
           | [] => None
           end
  | [] => None
  end.

(** The bytes before a white-space character at the end of a string, which
    is given back to front, as is the result. *)
Definition space_suffix (s : list ascii) : option (list ascii) :=
  match s with
  | c :: s1 =>
      if is_space c then Some s1
      else match s1 with
           | b :: s2 =>
               if is_space2 b c then Some s2
               else match s2 with
                    | a :: s3 => if is_space3 a b c then Some s3 else None
                    | [] => None
                    end
           | [] => None
           end
  | [] => None
  end.

(** Removes characters at the head for as long as [cut] finds one; [fuel]
    bounds the number of characters. *)
Fixpoint strip_head (cut : list ascii -> option (list ascii)) (fuel : nat)
    (s : list ascii) : list ascii :=
  match fuel with
  | O => s
  | S n =>
      match cut s with
      | Some rest => strip_head cut n rest
      | None => s
      end
  end.

(** [s.lstrip()] and [s.rstrip()], on the bytes. *)
Definition lstrip (s : list ascii) : list ascii :=
  strip_head space_prefix (length s) s.

Definition rstrip (s : list ascii) : list ascii :=
  rev (strip_head space_suffix (length s) (rev s)).

(** [s.strip()] *)
Definition strip (s : string) : string :=
  string_of_list_ascii (rstrip (lstrip (list_ascii_of_string s))).

(** [''.join(parts)] *)
Definition join (parts : list string) : string :=
  fold_right String.append "" parts.

(** ** Regular-expression scan

    The three patterns of [parse] have the shape [open(.+?)close]: a literal
    opening delimiter, a lazy, non-empty group of characters other than
    newline, and a one-character closing delimiter.  [re.IGNORECASE] has no
    effect on them, since no delimiter is a letter. *)
Record pattern := { pat_open : list ascii; pat_close : ascii }.

Definition newline : ascii := "010"%char.

(** [(.+?)close] at the head of [s]: the first character is taken whatever
    it is, then the group grows one character at a time until the closing
    delimiter follows. *)
Fixpoint lazy_group (close : ascii) (s : list ascii) : option (list ascii) :=
  match s with
  | c :: s' =>
      if Ascii.eqb c newline then None
      else match s' with
           | d :: _ =>
               if Ascii.eqb d close then Some [c]
               else option_map (cons c) (lazy_group close s')
           | [] => None
           end
  | [] => None
  end.

Fixpoint strip_prefix (p s : list ascii) : option (list ascii) :=
  match p, s with
  | [], _ => Some s
  | a :: p', b :: s' => if Ascii.eqb a b then strip_prefix p' s' else None
  | _ :: _, [] => None
  end.

(** A match of the pattern starting at the head of [s]: its group. *)
Definition match_at (pat : pattern) (s : list ascii) : option (list ascii) :=
  match strip_prefix (pat_open pat) s with
  | Some rest => lazy_group (pat_close pat) rest
  | None => None
  end.

(** The scan of [findall]: try each position from left to right; after a
    match, resume behind it ([skip] counts the characters of the match still
    to pass over). *)
Fixpoint findall_from (pat : pattern) (skip : nat) (s : list ascii)
  : list (list ascii) :=
  match s with
  | [] => []
  | _ :: s' =>
      match skip with
      | S k => findall_from pat k s'
      | O =>
          match match_at pat s with
          | Some g =>
              g :: findall_from pat (length (pat_open pat) + length g) s'
          | None => findall_from pat 0 s'
          end
      end
  end.

(** [pattern.findall(s)] for a pattern with one group. *)
Definition findall (pat : pattern) (s : string) : list string :=
  map string_of_list_ascii (findall_from pat 0 (list_ascii_of_string s)).

(** ** JSON documents *)
Inductive json :=
| JNull
| JBool (b : bool)
| JInt (n : Z)
| JFloat (bits : Z)
| JStr (s : string)
| JArr (items : list json)
| JObj (members : list (string * json)).

(** ** The host: logging, datetime, json and importlib

    The formatter extends [logging.Formatter] and calls into the standard
    library.  What it relies on is collected here. *)
Inductive style :=
| PercentStyle
| StrFormatStyle
| StringTemplateStyle
| OtherStyle.

(** A [default] hook of the JSON encoder: a function of the object. *)
Definition hook := heap -> value -> result value.

(** An encoder class, by its [default] method. *)
Inductive encoder_cls :=
| JsonEncoder_cls                    (* the encoder of this module *)
| OtherEncoder (default : hook).     (* a caller-supplied class *)

(** A serializer: [json.dumps] or a caller-supplied function, called with
    the log record and the keyword arguments [default], [cls], [indent] and
    [ensure_ascii]. *)
Definition serializer_fn :=
  heap -> pydict -> option hook -> option encoder_cls -> value -> value ->
  result string.

Inductive serializer :=
| json_dumps
| OtherSerializer (f : serializer_fn).

Class Host := {
  (** [record.getMessage()]: [str(record.msg)], with [record.args] merged in *)
  getMessage : heap -> pydict -> result string;
  (** [Formatter.formatTime(record, datefmt)] *)
  formatTime : pydict -> option string -> string;
  (** [Formatter.formatException(exc_info)] *)
  formatException : value -> string;
  (** [Formatter.formatStack(stack_info)] *)
  formatStack : value -> value;
  (** [datetime.fromtimestamp(created, tz=timezone.utc)] *)
  fromtimestamp_utc : value -> result temporal;
  (** [str(v)] for a value of a built-in type *)
  str_native : heap -> value -> string;
  (** [style.validate()] of the logging styles *)
  valid_format : style -> string -> bool;
  (** [getattr(importlib.import_module(path), function)] *)
  import_hook : string -> string -> result hook;
  import_encoder : string -> string -> result encoder_cls;
  import_serializer : string -> string -> result serializer;
  (** the text of a JSON document under [indent] and [ensure_ascii] *)
  json_text : value -> value -> json -> string;
  (** [' ' * indent], the indentation unit the encoder computes for an
      [indent] that is neither [None] nor a string: [TypeError] for a value
      that is no integer, [OverflowError] or [MemoryError] for an integer
      that is too large *)
  spaces : value -> result string;
  (** [sys.get_int_max_str_digits()]: the number of digits up to which an
      integer is converted to text, [0] for no limit (and on a Python
      without the limit); otherwise at least 640 *)
  int_max_str_digits : N;
  (** the text [json.dumps] writes for a key that is equal to the integer
      [n]: [int.__repr__] of an [int] ([ValueError] beyond the digit limit),
      [true] or [false] for a [bool], [float.__repr__] for a [float] *)
  int_key_text : Z -> result string;
  (** [sys.getrecursionlimit()] *)
  recursion_limit : nat
}.

(** [str(v)] *)
Definition py_str `{Host} (h : heap) (v : value) : result string :=
  match v with
  | VException o | VObject o => obj_str o
  | _ => Ok (str_native h v)
  end.

(** [json.JSONEncoder.default]: always raises [TypeError]. *)
Definition JSONEncoder_default : hook := fun _ _ => Raise TypeError.

(** ** The value encoder *)
Module JsonEncoder.

Definition format_datetime_obj (obj : temporal) : string := isoformat obj.

Definition default `{Host} : hook := fun h obj =>
  match obj with
  | VTemporal t => Ok (VStr (format_datetime_obj t))
  | VTraceback tb => Ok (VStr (strip (join (format_tb tb))))
  | VException _ | VClass _ =>
      match py_str h obj with
      | Ok s => Ok (VStr s)
      | Raise e => Raise e
      end
  | _ =>
      match JSONEncoder_default h obj with
      | Ok v => Ok v
      | Raise TypeError =>
          match py_str h obj with
          | Ok s => Ok (VStr s)
          | Raise e => if is_Exception e then Ok VNone else Raise e
          end
      | Raise e => Raise e
      end
  end.

End JsonEncoder.

(** ** [json.dumps]

    The walk of the standard encoder over a value: built-in scalars,
    tuples and dictionaries are encoded natively, any other object goes
    through the [default] hook and the hook's answer is encoded in its
    place.  [markers] holds the dictionaries being encoded (the circular
    reference check), [fuel] the remaining recursion depth.  An integer
    beyond the digit limit of the interpreter is refused, and so is a key
    the encoder has no text for; both are met in the order of the walk, a
    key before its value.

    [deref] reads a dictionary; a location outside the heap, which no value
    of a running program refers to, reads as the empty dictionary. *)
Definition deref (h : heap) (l : loc) : pydict :=
  match h !! l with
  | Some d => d
  | None => []
  end.

(** The member name of a key.  A string is written as it is and [None] as
    [null]; the text of a numeric key depends on the object that is stored
    as the key, which the embedding does not tell from its equals, and is
    left to the host. *)
Definition json_key `{Host} (k : key) : result string :=
  match k with
  | KStr s => Ok s
  | KInt n => int_key_text n
  | KNone => Ok "null"
  end.

Definition RecursionError : exn := OtherException "RecursionError".
Definition OverflowError : exn := OtherException "OverflowError".

(** The number of decimal digits of an integer. *)
Definition decimal_digits (z : Z) : N :=
  N.of_nat (String.length (pretty (Z.abs_N z))).

(** [int.__repr__(z)] succeeds: the digit limit is off or is kept. *)
Definition int_repr_ok `{Host} (z : Z) : bool :=
  (int_max_str_digits =? 0)%N || (decimal_digits z <=? int_max_str_digits)%N.

Fixpoint encode_value `{Host} (fuel : nat) (dflt : hook) (h : heap)
    (markers : list loc) (v : value) : result json :=
  match fuel with
  | O => Raise RecursionError
  | S n =>
      match v with
      | VNone => Ok JNull
      | VBool b => Ok (JBool b)
      | VInt z => if int_repr_ok z then Ok (JInt z) else Raise ValueError
      | VFloat bits => Ok (JFloat bits)
      | VStr s => Ok (JStr s)
      | VTuple items =>
          items' ← mapM (encode_value n dflt h markers) items;
          mret (JArr items')
      | VDict l =>
          if bool_decide (l ∈ markers) then Raise ValueError
          else
            members ← mapM (fun kv =>
                        name ← json_key kv.1;
                        j ← encode_value n dflt h (l :: markers) kv.2;
                        mret (name, j)) (deref h l);
            mret (JObj members)
      | _ =>
          v' ← dflt h v;
          encode_value n dflt h markers v'
      end
  end.

(** The hook in force for a call with keyword arguments [default] and
    [cls]: an explicit [default] replaces the method of the class. *)
Definition effective_default `{Host} (dflt : option hook)
    (cls : option encoder_cls) : hook :=
  match dflt with
  | Some f => f
  | None =>
      match cls with
      | Some JsonEncoder_cls => JsonEncoder.default
      | Some (OtherEncoder d) => d
      | None => JSONEncoder_default
      end
  end.

(** The JSON object for the log record, an [OrderedDict] local to the
    call. *)
Definition encode_object `{Host} (fuel : nat) (dflt : hook) (h : heap)
    (obj : pydict) : result json :=
  members ← mapM (fun kv =>
              name ← json_key kv.1;
              j ← encode_value fuel dflt h [] kv.2;
              mret (name, j)) obj;
  mret (JObj members).

(** The encoder first settles the indentation: [None] and a string are
    taken as they are, anything else is multiplied with a space. *)
Definition indent_unit `{Host} (indent : value) : result unit :=
  match indent with
  | VNone | VStr _ => Ok tt
  | _ => match spaces indent with Ok _ => Ok tt | Raise e => Raise e end
  end.

Definition dumps `{Host} : serializer_fn :=
  fun h obj dflt cls indent ensure_ascii =>
    _ ← indent_unit indent;
    j ← encode_object recursion_limit (effective_default dflt cls) h obj;
    mret (json_text indent ensure_ascii j).

(** ** The record and the extras merge *)

Definition RESERVED_ATTRS : list key := map KStr [
    "args"; "asctime"; "created"; "exc_info"; "exc_text"; "filename";
    "funcName"; "levelname"; "levelno"; "lineno"; "module";
    "msecs"; "message"; "msg"; "name"; "pathname"; "process";
    "processName"; "relativeCreated"; "stack_info"; "thread"; "threadName"].

(** A log record is its instance dictionary, [record.__dict__]. *)
Definition record_t := pydict.

(** [record.<name>] *)
Definition getattr (record : record_t) (name : string) : result value :=
  match od_get (KStr name) record with
  | Some v => Ok v
  | None => Raise AttributeError
  end.

(** [record.__dict__.get(field)] *)
Definition dict_get (d : pydict) (k : key) : value :=
  default VNone (od_get k d).

Definition merge_record_extra (record : record_t) (target : pydict)
    (reserved : odict key) : pydict :=
  fold_left (fun target kv =>
      if negb (od_mem kv.1 reserved) && negb (key_startswith_underscore kv.1)
      then od_set kv.1 kv.2 target
      else target)
    record target.

(** ** [logging.Formatter.__init__]

    The constructor of the base class, as in CPython's [logging/__init__.py]:
    it picks the style class for the style character ([ValueError] for an
    unknown one), lets the style object default the template
    ([self._fmt = fmt or self.default_format] in its constructor, with
    [default_format] one of [%(message)s], [{message}], [${message}]),
    validates the template on request, and stores the style object and its
    template as [self._style] and [self._fmt]. *)
Definition STYLES (c : string) : option style :=
  if String.eqb c "%" then Some PercentStyle
  else if String.eqb c "{" then Some StrFormatStyle
  else if String.eqb c "$" then Some StringTemplateStyle
  else None.

Definition default_format (st : style) : string :=
  match st with
  | StrFormatStyle => "{message}"
  | StringTemplateStyle => "${message}"
  | _ => "%(message)s"
  end.

Definition Formatter_init `{Host} (fmt : option string) (style_char : string)
    (validate : bool) : result (style * string) :=
  match STYLES style_char with
  | None => Raise ValueError
  | Some st =>
      let f := match fmt with
               | Some s => if String.eqb s "" then default_format st else s
               | None => default_format st
               end in
      if validate && negb (valid_format st f) then Raise ValueError
      else Ok (st, f)
  end.

(** ** The formatter *)
Module JsonFormatter.

(** The attributes of a formatter instance.  [rename_fields] and
    [static_fields] are the caller's dictionaries, held by reference. *)
Record t := {
  json_default : option hook;
  json_encoder : option encoder_cls;
  json_serializer : serializer;
  json_indent : value;
  json_ensure_ascii : value;
  prefix : string;
  rename_fields : loc;
  static_fields : loc;
  reserved_attrs : odict key;
  timestamp : value;
  _style : style;
  _fmt : option string;
  datefmt : option string;
  _required_fields : list string;
  _skip_fields : odict key
}.

(** A function-valued option is given as the function or as its dotted
    name. *)
Inductive fn_arg (A : Type) :=
| Given (a : A)
| Named (dotted : string).
Arguments Given {A} a.
Arguments Named {A} dotted.

(** The arguments of the constructor; [None] is an omitted keyword. *)
Record kwargs := {
  kw_fmt : option string;
  kw_datefmt : option string;
  kw_style : option string;
  kw_validate : option bool;
  kw_json_default : option (fn_arg hook);
  kw_json_encoder : option (fn_arg encoder_cls);
  kw_json_serializer : option (fn_arg serializer);
  kw_json_indent : option value;
  kw_json_ensure_ascii : option value;
  kw_prefix : option string;
  kw_rename_fields : option loc;
  kw_static_fields : option loc;
  kw_reserved_attrs : option (list key);
  kw_timestamp : option value
}.

(** [s.rpartition('.')]: the text before and after the last dot. *)
Fixpoint split_at_dot (s : list ascii) : option (list ascii * list ascii) :=
  match s with
  | [] => None
  | c :: s' =>
      if Ascii.eqb c "."%char then Some ([], s')
      else match split_at_dot s' with
           | Some (a, b) => Some (c :: a, b)
           | None => None
           end
  end.

Definition rpartition_dot (s : string) : string * string :=
  match split_at_dot (rev (list_ascii_of_string s)) with
  | Some (tail_rev, head_rev) =>
      (string_of_list_ascii (rev head_rev), string_of_list_ascii (rev tail_rev))
  | None => ("", s)
  end.

Definition _str_to_fn {A} (import : string -> string -> result A)
    (fn_as_str : option (fn_arg A)) : result (option A) :=
  match fn_as_str with
  | None => Ok None
  | Some (Given f) => Ok (Some f)
  | Some (Named dotted) =>
      let '(path, function) := rpartition_dot dotted in
      match import path function with
      | Ok f => Ok (Some f)
      | Raise e => Raise e
      end
  end.

Definition parse (self : t) : result (list string) :=
  match
    match _style self with
    | StringTemplateStyle =>
        Ok {| pat_open := ["$"; "{"]%char; pat_close := "}"%char |}
    | StrFormatStyle =>
        Ok {| pat_open := ["{"]%char; pat_close := "}"%char |}
    | PercentStyle =>
        Ok {| pat_open := ["%"; "("]%char; pat_close := ")"%char |}
    | OtherStyle => Raise ValueError
    end
  with
  | Raise e => Raise e
  | Ok formatter_style_pattern =>
      match _fmt self with
      | Some f =>
          if String.eqb f "" then Ok []
          else Ok (findall formatter_style_pattern f)
      | None => Ok []
      end
  end.

(** A fresh dictionary object. *)
Definition alloc (d : pydict) (h : heap) : loc * heap :=
  let l := fresh (dom h) in (l, <[l := d]> h).

Definition with_fields (self : t) (required : list string)
    (skip : odict key) : t :=
  {| json_default := json_default self;
     json_encoder := json_encoder self;
     json_serializer := json_serializer self;
     json_indent := json_indent self;
     json_ensure_ascii := json_ensure_ascii self;
     prefix := prefix self;
     rename_fields := rename_fields self;
     static_fields := static_fields self;
     reserved_attrs := reserved_attrs self;
     timestamp := timestamp self;
     _style := _style self;
     _fmt := _fmt self;
     datefmt := datefmt self;
     _required_fields := required;
     _skip_fields := skip |}.

(** The constructor.  It returns the instance, or the exception raised,
    and the heap with the dictionaries it created for omitted options. *)
Definition __init__ `{Host} (kw : kwargs) (h : heap) : result t * heap :=
  match _str_to_fn import_hook (kw_json_default kw) with
  | Raise e => (Raise e, h)
  | Ok jd =>
  match _str_to_fn import_encoder (kw_json_encoder kw) with
  | Raise e => (Raise e, h)
  | Ok je =>
  match _str_to_fn import_serializer
          (Some (default (Given json_dumps) (kw_json_serializer kw))) with
  | Raise e => (Raise e, h)
  | Ok js =>
  let '(rn, h1) := match kw_rename_fields kw with
                   | Some l => (l, h)
                   | None => alloc [] h
                   end in
  let '(sf, h2) := match kw_static_fields kw with
                   | Some l => (l, h1)
                   | None => alloc [] h1
                   end in
  let reserved := od_of_names (default RESERVED_ATTRS (kw_reserved_attrs kw)) in
  match Formatter_init (kw_fmt kw) (default "%" (kw_style kw))
          (default true (kw_validate kw)) with
  | Raise e => (Raise e, h2)
  | Ok (st, f) =>
      let self :=
        {| json_default := jd;
           json_encoder :=
             match je, jd with
             | None, None => Some JsonEncoder_cls
             | _, _ => je
             end;
           json_serializer := default json_dumps js;
           json_indent := default VNone (kw_json_indent kw);
           json_ensure_ascii := default (VBool true) (kw_json_ensure_ascii kw);
           prefix := default "" (kw_prefix kw);
           rename_fields := rn;
           static_fields := sf;
           reserved_attrs := reserved;
           timestamp := default (VBool false) (kw_timestamp kw);
           _style := st;
           _fmt := Some f;
           datefmt := kw_datefmt kw;
           _required_fields := [];
           _skip_fields := [] |} in
      match parse self with
      | Raise e => (Raise e, h2)
      | Ok required =>
          let names := map KStr required in
          (Ok (with_fields self required
                 (od_update (od_of_names names) reserved)), h2)
      end
  end end end end.

(** The key a value denotes as a dictionary index.  Strings, integers,
    [True] and [False] (which index as [1] and [0]) and [None] are covered.
    A dictionary is unhashable: [TypeError].  A value of any other kind (a
    float, a tuple, an instance of another class) is a key in Python when it
    is hashable, with an equality of its own; the embedding has no key for
    it and reports it like an unhashable one.  The properties of
    [add_fields] are therefore stated for rename maps whose targets have a
    key here ([fields_storable], [field_key]). *)
Definition key_of_value (v : value) : result key :=
  match v with
  | VStr s => Ok (KStr s)
  | VInt n => Ok (KInt n)
  | VBool b => Ok (KInt (if b then 1 else 0))
  | VNone => Ok KNone
  | _ => Raise TypeError
  end.

(** One turn of the loop over [self._required_fields]. *)
Definition add_field (self : t) (h : heap) (record : record_t)
    (log_record : pydict) (field : string) : result pydict :=
  match od_get (KStr field) (deref h (rename_fields self)) with
  | Some renamed =>
      match key_of_value renamed with
      | Ok k => Ok (od_set k (dict_get record (KStr field)) log_record)
      | Raise e => Raise e
      end
  | None => Ok (od_set (KStr field) (dict_get record (KStr field)) log_record)
  end.

Fixpoint add_required (self : t) (h : heap) (record : record_t)
    (log_record : pydict) (fields : list string) : result pydict :=
  match fields with
  | [] => Ok log_record
  | field :: fields' =>
      match add_field self h record log_record field with
      | Ok log_record' => add_required self h record log_record' fields'
      | Raise e => Raise e
      end
  end.

(** The key of the injected timestamp, when injection is on. *)
Definition timestamp_key (self : t) (h : heap) : option key :=
  if truthy h (timestamp self) then
    Some (match timestamp self with
          | VStr s => KStr s
          | _ => KStr "timestamp"
          end)
  else None.

(** [add_fields] fills [log_record] in place; here it returns the filled
    record.  It reads the heap and writes nothing else. *)
Definition add_fields `{Host} (self : t) (h : heap) (log_record : pydict)
    (record : record_t) (message_dict : loc) : result pydict :=
  match add_required self h record log_record (_required_fields self) with
  | Raise e => Raise e
  | Ok lr1 =>
      let lr2 := od_update lr1 (deref h (static_fields self)) in
      let lr3 := od_update lr2 (deref h message_dict) in
      let lr4 := merge_record_extra record lr3 (_skip_fields self) in
      match timestamp_key self h with
      | Some k =>
          match getattr record "created" with
          | Raise e => Raise e
          | Ok created =>
              match fromtimestamp_utc created with
              | Raise e => Raise e
              | Ok dt => Ok (od_set k (VTemporal dt) lr4)
              end
          end
      | None => Ok lr4
      end
  end.

Definition process_log_record (log_record : pydict) : pydict := log_record.

Definition jsonify_log_record `{Host} (self : t) (h : heap)
    (log_record : pydict) : result string :=
  match json_serializer self with
  | json_dumps => dumps
  | OtherSerializer f => f
  end h log_record (json_default self) (json_encoder self)
    (json_indent self) (json_ensure_ascii self).

Definition serialize_log_record `{Host} (self : t) (h : heap)
    (log_record : pydict) : result string :=
  match jsonify_log_record self h log_record with
  | Ok s => Ok (prefix self ++ s)%string
  | Raise e => Raise e
  end.

(** *** [format]

    [format] writes attributes of the record and entries of the message
    dictionary, so it runs over a store: the formatter instance, the
    record's instance dictionary, and the heap of dictionaries.  A raised
    exception leaves the store as it was at that point. *)
Record store := {
  st_self : t;
  st_record : record_t;
  st_heap : heap
}.

Definition M (A : Type) : Type := store -> result A * store.

Definition retM {A} (a : A) : M A := fun st => (Ok a, st).

Definition bindM {A B} (c : M A) (k : A -> M B) : M B := fun st =>
  match c st with
  | (Ok a, st') => k a st'
  | (Raise e, st') => (Raise e, st')
  end.

Declare Scope py_scope.
Delimit Scope py_scope with py.
Notation "x <- c1 ;; c2" := (bindM c1 (fun x => c2))
  (at level 100, c1 at next level, right associativity) : py_scope.
Notation "c1 ;; c2" := (bindM c1 (fun _ => c2))
  (at level 100, right associativity) : py_scope.

Definition liftM {A} (f : store -> result A) : M A := fun st => (f st, st).

(** [try: body except AttributeError: pass] *)
Definition except_AttributeError (body : M unit) : M unit := fun st =>
  match body st with
  | (Raise AttributeError, st') => (Ok tt, st')
  | r => r
  end.

(** [self.<attribute>] *)
Definition get_self : M t := fun st => (Ok (st_self st), st).

(** [record.<name>] *)
Definition get_attr (name : string) : M value :=
  liftM (fun st => getattr (st_record st) name).

(** [record.<name> = v] *)
Definition set_attr (name : string) (v : value) : M unit := fun st =>
  (Ok tt, {| st_self := st_self st;
             st_record := od_set (KStr name) v (st_record st);
             st_heap := st_heap st |}).

(** [{}] *)
Definition new_dict : M loc := fun st =>
  let '(l, h) := alloc [] (st_heap st) in
  (Ok l, {| st_self := st_self st; st_record := st_record st; st_heap := h |}).

(** [d.get(k)] *)
Definition dict_get_at (d : loc) (k : string) : M value :=
  liftM (fun st => Ok (dict_get (deref (st_heap st) d) (KStr k))).

(** [d[k] = v] *)
Definition dict_set_at (d : loc) (k : string) (v : value) : M unit := fun st =>
  (Ok tt, {| st_self := st_self st;
             st_record := st_record st;
             st_heap := <[d := od_set (KStr k) v (deref (st_heap st) d)]>
                          (st_heap st) |}).

(** [bool(v)] *)
Definition truth (v : value) : M bool :=
  liftM (fun st => Ok (truthy (st_heap st) v)).

Local Open Scope py_scope.

(** Lines 135 to 140: the message fields.  A dictionary logged as the
    message is used as it is, not copied. *)
Definition message_fields `{Host} : M loc :=
  fresh_dict <- new_dict ;;
  msg <- get_attr "msg" ;;
  match msg with
  | VDict l => set_attr "message" VNone ;; retM l
  | _ =>
      m <- liftM (fun st => getMessage (st_heap st) (st_record st)) ;;
      set_attr "message" (VStr m) ;;
      retM fresh_dict
  end.

(** Lines 141 and 142. *)
Definition format_asctime `{Host} : M unit :=
  self <- get_self ;;
  if bool_decide ("asctime" ∈ _required_fields self) then
    asctime <- liftM (fun st =>
                 Ok (formatTime (st_record st) (datefmt self))) ;;
    set_attr "asctime" (VStr asctime)
  else retM tt.

(** Lines 144 and 145. *)
Definition add_exc_info `{Host} (message_dict : loc) : M unit :=
  exc_info <- get_attr "exc_info" ;;
  has_exc <- truth exc_info ;;
  if has_exc then
    given <- dict_get_at message_dict "exc_info" ;;
    has_given <- truth given ;;
    if has_given then retM tt
    else dict_set_at message_dict "exc_info" (VStr (formatException exc_info))
  else retM tt.

(** Lines 146 and 147. *)
Definition add_exc_text (message_dict : loc) : M unit :=
  given <- dict_get_at message_dict "exc_info" ;;
  has_given <- truth given ;;
  if has_given then retM tt
  else
    exc_text <- get_attr "exc_text" ;;
    has_text <- truth exc_text ;;
    if has_text then dict_set_at message_dict "exc_info" exc_text
    else retM tt.

(** Lines 148 to 152. *)
Definition add_stack_info `{Host} (message_dict : loc) : M unit :=
  except_AttributeError (
    stack_info <- get_attr "stack_info" ;;
    has_stack <- truth stack_info ;;
    if has_stack then
      given <- dict_get_at message_dict "stack_info" ;;
      has_given <- truth given ;;
      if has_given then retM tt
      else dict_set_at message_dict "stack_info" (formatStack stack_info)
    else retM tt).

(** Lines 135 to 157 of [format]: the log record that is handed to the
    serializer. *)
Definition format_log_record `{Host} : M pydict :=
  message_dict <- message_fields ;;
  format_asctime ;;
  add_exc_info message_dict ;;
  add_exc_text message_dict ;;
  add_stack_info message_dict ;;
  log_record <- liftM (fun st =>
    add_fields (st_self st) (st_heap st) [] (st_record st) message_dict) ;;
  retM (process_log_record log_record).

Definition format `{Host} : M string :=
  log_record <- format_log_record ;;
  liftM (fun st => serialize_log_record (st_self st) (st_heap st) log_record).

Local Close Scope py_scope.

(** *** Reading the result of [add_fields]

    The definitions below name what the steps of [add_fields] contribute,
    so that the properties can refer to them. *)

(** The key under which a parsed field is stored: its entry in the rename
    map, or the field name itself. *)
Definition field_key (self : t) (h : heap) (field : string) : result key :=
  match od_get (KStr field) (deref h (rename_fields self)) with
  | Some renamed => key_of_value renamed
  | None => Ok (KStr field)
  end.

Definition stored_under (self : t) (h : heap) (k : key) (field : string)
  : bool :=
  match field_key self h field with
  | Ok k' => bool_decide (k' = k)
  | Raise _ => false
  end.

(** The last element of a list that satisfies [p]. *)
Fixpoint last_field (p : string -> bool) (fields : list string)
  : option string :=
  match fields with
  | [] => None
  | f :: fields' =>
      match last_field p fields' with
      | Some g => Some g
      | None => if p f then Some f else None
      end
  end.

(** The value the loop over the parsed fields leaves under key [k]: the
    record's value for the last field stored under [k]. *)
Definition template_binding (self : t) (h : heap) (record : record_t)
    (k : key) : option value :=
  match last_field (stored_under self h k) (_required_fields self) with
  | Some f => Some (dict_get record (KStr f))
  | None => None
  end.

(** The test of [merge_record_extra], negated: the attribute is left out. *)
Definition skipped (reserved : odict key) (k : key) : bool :=
  od_mem k reserved || key_startswith_underscore k.

(** The extra attribute the merge contributes under key [k], if any. *)
Definition extra_binding (self : t) (record : record_t) (k : key)
  : option value :=
  if skipped (_skip_fields self) k then None else od_get k record.

(** The timestamp entry [add_fields] injects, when injection is on. *)
Definition injected_timestamp `{Host} (self : t) (h : heap)
    (record : record_t) : result (option (key * value)) :=
  match timestamp_key self h with
  | None => Ok None
  | Some k =>
      match getattr record "created" with
      | Raise e => Raise e
      | Ok created =>
          match fromtimestamp_utc created with
          | Raise e => Raise e
          | Ok dt => Ok (Some (k, VTemporal dt))
          end
      end
  end.

(** The first candidate that is present. *)
Fixpoint first_of {A} (candidates : list (option A)) : option A :=
  match candidates with
  | [] => None
  | Some a :: _ => Some a
  | None :: candidates' => first_of candidates'
  end.

(** The value under key [k] by precedence, highest first: the injected
    timestamp, a non-skipped extra attribute, a message field, a static
    field, a parsed template field. *)
Definition by_precedence (self : t) (h : heap) (record : record_t)
    (message_dict : loc) (injected : option (key * value)) (k : key)
  : option value :=
  first_of [
    match injected with
    | Some (tk, tv) => if decide (tk = k) then Some tv else None
    | None => None
    end;
    extra_binding self record k;
    od_get k (deref h message_dict);
    od_get k (deref h (static_fields self));
    template_binding self h record k ].

(** Every parsed field has a key to be stored under. *)
Definition fields_storable (self : t) (h : heap) : bool :=
  forallb (fun f => is_Ok (field_key self h f)) (_required_fields self).

(** *** What a call of [format] leaves alone

    [frame attrs keys md st st']: from [st] to [st'] the formatter instance
    is the same; the record differs at most in the attributes [attrs]; every
    dictionary of [st] is still there and, unless it is [md], unchanged;
    [md] has lost no key and differs at most under the keys [keys]. *)
Definition frame (attrs keys : list key) (md : loc) (st st' : store) : Prop :=
  st_self st' = st_self st /\
  (forall k, k ∉ attrs ->
     od_get k (st_record st') = od_get k (st_record st)) /\
  (od_wf (st_record st) -> od_wf (st_record st')) /\
  (forall l, is_Some (st_heap st !! l) -> is_Some (st_heap st' !! l)) /\
  (forall l, l <> md -> is_Some (st_heap st !! l) ->
     st_heap st' !! l = st_heap st !! l) /\
  (forall k, k ∉ keys ->
     od_get k (deref (st_heap st') md) = od_get k (deref (st_heap st) md)) /\
  (forall k, od_mem k (deref (st_heap st) md) = true ->
     od_mem k (deref (st_heap st') md) = true) /\
  (od_wf (deref (st_heap st) md) -> od_wf (deref (st_heap st') md)).

(** A computation that stays within a frame, whatever its outcome. *)
Definition keeps {A} (attrs keys : list key) (md : loc) (c : M A) : Prop :=
  forall st, frame attrs keys md st (c st).2.

Definition written_attrs : list key := [KStr "message"; KStr "asctime"].
Definition enriched_keys : list key := [KStr "exc_info"; KStr "stack_info"].

(** [md] is the dictionary of message fields for the record of [st]: the
    dictionary logged as the message, or else a new one, in which case the
    message text has to be computable. *)
Definition message_dict_of `{Host} (st : store) (md : loc) : Prop :=
  match getattr (st_record st) "msg" with
  | Ok (VDict l) => md = l /\ is_Some (st_heap st !! l)
  | Ok _ =>
      md = (alloc [] (st_heap st)).1 /\
      is_Ok (getMessage (alloc [] (st_heap st)).2 (st_record st)) = true
  | Raise _ => False
  end.

(** The store is one [format] runs on without an error: the record has the
    attributes of a log record, the configuration dictionaries exist and are
    not the message dictionary, every parsed field has a key, and the
    timestamp, if injected, can be computed. *)
Definition ready `{Host} (st : store) (md : loc)
    (injected : option (key * value)) : Prop :=
  message_dict_of st md /\
  is_Ok (getattr (st_record st) "exc_info") = true /\
  is_Ok (getattr (st_record st) "exc_text") = true /\
  is_Some (st_heap st !! rename_fields (st_self st)) /\
  rename_fields (st_self st) <> md /\
  is_Some (st_heap st !! static_fields (st_self st)) /\
  static_fields (st_self st) <> md /\
  fields_storable (st_self st) (st_heap st) = true /\
  od_wf (st_record st) /\
  od_wf (deref (st_heap st) (static_fields (st_self st))) /\
  od_wf (deref (st_heap st) md) /\
  (forall l, timestamp (st_self st) <> VDict l) /\
  injected_timestamp (st_self st) (st_heap st) (st_record st) = Ok injected.

End JsonFormatter.

(** ** Values the encoder's fallback covers

    [str(v)] fails with an error outside the [Exception] class, which
    [except Exception] lets through. *)
Definition str_fails_outside_Exception (v : value) : bool :=
  match v with
  | VException o | VObject o =>
      match obj_str o with
      | Raise e => negb (is_Exception e)
      | Ok _ => false
      end
  | _ => false
  end.

(** [v] is an exception instance whose [str(v)] fails. *)
Definition exception_str_fails (v : value) : bool :=
  match v with
  | VException o => negb (is_Ok (obj_str o))
  | _ => false
  end.

(** ** Templates

    A template is literal text with placeholders in it: leading text, then
    each placeholder followed by more text. *)
Definition placeholder (pat : pattern) (name : list ascii) : list ascii :=
  pat_open pat ++ name ++ [pat_close pat].

Definition render (pat : pattern) (lead : list ascii)
    (segments : list (list ascii * list ascii)) : list ascii :=
  lead ++ concat (map (fun seg => placeholder pat seg.1 ++ seg.2) segments).

(** A field name: not empty, on one line, free of the closing delimiter. *)
Definition name_ok (pat : pattern) (name : list ascii) : bool :=
  match name with
  | [] => false
  | _ =>
      forallb (fun c => negb (Ascii.eqb c newline)
                        && negb (Ascii.eqb c (pat_close pat))) name
  end.

(** Literal text: free of the character that opens a placeholder. *)
Definition literal_ok (pat : pattern) (text : list ascii) : bool :=
  match pat_open pat with
  | [] => false
  | o :: _ => forallb (fun c => negb (Ascii.eqb o c)) text
  end.

(** The pattern [parse] compiles for a supported style. *)
Definition style_pattern (st : style) : option pattern :=
  match st with
  | StringTemplateStyle =>
      Some {| pat_open := ["$"; "{"]%char; pat_close := "}"%char |}
  | StrFormatStyle =>
      Some {| pat_open := ["{"]%char; pat_close := "}"%char |}
  | PercentStyle =>
      Some {| pat_open := ["%"; "("]%char; pat_close := ")"%char |}
  | OtherStyle => None
  end.

(** ** Sample data for the worked examples

    A host with fixed answers, an ordinary log record, and the constructor
    arguments with every keyword omitted. *)
Module Example.

Import JsonFormatter.

Definition host : Host := {|
  getMessage := fun _ record =>
    match od_get (KStr "msg") record with
    | Some (VStr s) => Ok s
    | _ => Ok ""
    end;
  formatTime := fun _ _ => "2001-09-09 01:46:40,000";
  formatException := fun _ => "Traceback (most recent call last): boom";
  formatStack := fun v => v;
  fromtimestamp_utc := fun _ =>
    Ok {| isoformat := "2001-09-09T01:46:40+00:00" |};
  str_native := fun _ _ => "";
  valid_format := fun _ _ => true;
  import_hook := fun _ _ => Raise ImportError;
  import_encoder := fun _ _ => Raise ImportError;
  import_serializer := fun _ _ => Raise ImportError;
  json_text := fun _ _ _ => "";
  spaces := fun indent =>
    match indent with
    | VInt _ | VBool _ => Ok ""
    | _ => Raise TypeError
    end;
  int_max_str_digits := 4300;
  int_key_text := fun n => Ok (pretty n);
  recursion_limit := 1000
|}.

(** Constructor arguments: a template, the two caller dictionaries and the
    timestamp flag; every other keyword is omitted. *)
Definition kwargs_of (fmt : option string)
    (rename_fields static_fields : option loc) (timestamp : option value)
  : kwargs := {|
  kw_fmt := fmt;
  kw_datefmt := None;
  kw_style := None;
  kw_validate := None;
  kw_json_default := None;
  kw_json_encoder := None;
  kw_json_serializer := None;
  kw_json_indent := None;
  kw_json_ensure_ascii := None;
  kw_prefix := None;
  kw_rename_fields := rename_fields;
  kw_static_fields := static_fields;
  kw_reserved_attrs := None;
  kw_timestamp := timestamp
|}.

Definition no_kwargs : kwargs := kwargs_of None None None None.

(** The attributes of a record made by [logger.info(msg)]. *)
Definition record_of (msg exc_info : value) (extra : pydict) : record_t :=
  [ (KStr "name", VStr "root");
    (KStr "msg", msg);
    (KStr "args", VTuple []);
    (KStr "levelname", VStr "INFO");
    (KStr "levelno", VInt 20);
    (KStr "pathname", VStr "app.py");
    (KStr "filename", VStr "app.py");
    (KStr "module", VStr "app");
    (KStr "exc_info", exc_info);
    (KStr "exc_text", VNone);
    (KStr "stack_info", VNone);
    (KStr "lineno", VInt 7);
    (KStr "funcName", VStr "main");
    (KStr "created", VFloat 4741671816366391296) ] ++ extra.

(** [(ValueError, ValueError('boom'), <traceback>)] *)
Definition some_exc_info : value :=
  VTuple [ VClass "ValueError";
           VException {| obj_class := "ValueError";
                         obj_str := Ok "boom";
                         obj_bool := true |};
           VTraceback {| format_tb := ["  File app.py, line 7, in main" ] |} ].

(** C1: static field [service = x], message payload [service = y],
    [timestamp=True]. *)
Definition service_heap : heap :=
  {[ 1%positive := [(KStr "service", VStr "y")];
     2%positive := [(KStr "service", VStr "x")] ]}.

Definition service_kwargs : kwargs :=
  kwargs_of (Some "%(levelname)s %(message)s") None (Some 2%positive)
    (Some (VBool true)).

Definition service_record : record_t :=
  record_of (VDict 1%positive) VNone [(KStr "message", VNone)].

(** A formatter with the default options, for a style and a stored
    template. *)
Definition formatter_of (st : style) (fmt : option string) : t := {|
  json_default := None;
  json_encoder := Some JsonEncoder_cls;
  json_serializer := json_dumps;
  json_indent := VNone;
  json_ensure_ascii := VBool true;
  prefix := "";
  rename_fields := 1%positive;
  static_fields := 2%positive;
  reserved_attrs := od_of_names RESERVED_ATTRS;
  timestamp := VBool false;
  _style := st;
  _fmt := fmt;
  datefmt := None;
  _required_fields := [];
  _skip_fields := od_of_names RESERVED_ATTRS
|}.

(** Fields [b] then [a], each followed by a conversion letter. *)
Definition b_then_a : list (list ascii * list ascii) :=
  [ (["b"]%char, ["s"; " "]%char); (["a"]%char, ["s"]%char) ].

(** C7, C10: [rename_fields = {"levelname": "severity"}] and the template
    [%(levelname)s %(message)s]; location 4 is an empty message
    dictionary. *)
Definition rename_heap (renamed : string) : heap :=
  {[ 3%positive := [(KStr "levelname", VStr renamed)];
     4%positive := [] ]}.

Definition rename_kwargs : kwargs :=
  kwargs_of (Some "%(levelname)s %(message)s") (Some 3%positive) None None.

(** A record logged with a text message and one extra attribute. *)
Definition record_with_extra (name : string) (v : value) : record_t :=
  record_of (VStr "started") VNone
    [(KStr "message", VStr "started"); (KStr name, v)].

(** Instances of a user-defined class, by the outcome of [str]. *)
Definition object_with (outcome : result string) : pyobj :=
  {| obj_class := "Opaque"; obj_str := outcome; obj_bool := true |}.

(** C4, C8, C9: a record whose message is the dictionary at location 1,
    logged with exception info, for a formatter with the template
    [%(levelname)s %(message)s] and no other option. *)
Definition payload_heap (payload : pydict) : heap :=
  {[ 1%positive := payload ]}.

Definition login_event : pydict := [(KStr "event", VStr "login")].

Definition login_event_with (exc_info : value) : pydict :=
  login_event ++ [(KStr "exc_info", exc_info)].

Definition plain_kwargs : kwargs :=
  kwargs_of (Some "%(levelname)s %(message)s") None None None.

Definition payload_record : record_t :=
  record_of (VDict 1%positive) some_exc_info [].

End Example.

(** ** Further notions *)

(** The shape of a group the scan returns: at least one character, on one
    line, and free of the closing delimiter behind its first character. *)
Definition group_ok (close : ascii) (g : list ascii) : Prop :=
  g <> [] /\
  forallb (fun c => negb (Ascii.eqb c newline)) g = true /\
  forallb (fun c => negb (Ascii.eqb c close)) (tail g) = true.

(** A value without parts that is serialized without an error: a scalar
    (an integer within the digit limit), or an object that the module's
    encoder turns into one ([str] of an exception succeeds, [str] of any
    other object fails at most inside the [Exception] class). *)
Definition flat_value `{Host} (v : value) : bool :=
  match v with
  | VTuple _ | VDict _ => false
  | VInt z => int_repr_ok z
  | VException o => is_Ok (obj_str o)
  | VObject _ => negb (str_fails_outside_Exception v)
  | _ => true
  end.

(** A string made of white-space characters only. *)
Inductive blank : list ascii -> Prop :=
| blank_nil : blank []
| blank_cons s rest :
    space_prefix s = Some rest -> blank rest -> blank s.

(** The sample host with another [getMessage]. *)
Definition host_with_getMessage (get : heap -> pydict -> result string)
  : Host := {|
  getMessage := get;
  formatTime := formatTime (Host := Example.host);
  formatException := formatException (Host := Example.host);
  formatStack := formatStack (Host := Example.host);
  fromtimestamp_utc := fromtimestamp_utc (Host := Example.host);
  str_native := str_native (Host := Example.host);
  valid_format := valid_format (Host := Example.host);
  import_hook := import_hook (Host := Example.host);
  import_encoder := import_encoder (Host := Example.host);
  import_serializer := import_serializer (Host := Example.host);
  json_text := json_text (Host := Example.host);
  spaces := spaces (Host := Example.host);
  int_max_str_digits := int_max_str_digits (Host := Example.host);
  int_key_text := int_key_text (Host := Example.host);
  recursion_limit := recursion_limit (Host := Example.host)
|}.

(** * Properties *)

Import JsonFormatter.

(** Runs the constructor on concrete arguments and records the outcome as
    [Hinit]. *)
Ltac run_init host kw h :=
  let r := fresh "r" in
  pose (r := __init__ (H := host) kw h);
  assert (__init__ (H := host) kw h = r) as Hinit by reflexivity;
  vm_compute in r; subst r.

(** ** Ordered dictionaries *)
Section odict.
Context {A : Type}.
Implicit Types (d src : odict A) (k : key) (v : A).

Lemma od_get_set k k' v d :
  od_get k (od_set k' v d) = if decide (k' = k) then Some v else od_get k d.
Proof.
  induction d as [|[k0 v0] d IH]; simpl.
  - repeat case_decide; done.
  - repeat (case_decide; simpl; simplify_eq); try done.
Qed.

Lemma od_get_set_eq k v d : od_get k (od_set k v d) = Some v.
Proof. rewrite od_get_set. by case_decide. Qed.

Lemma od_get_set_ne k k' v d :
  k' <> k -> od_get k (od_set k' v d) = od_get k d.
Proof. intros. rewrite od_get_set. by case_decide. Qed.

Lemma od_mem_set k k' v d :
  od_mem k (od_set k' v d) = bool_decide (k' = k) || od_mem k d.
Proof.
  unfold od_mem. rewrite od_get_set.
  case_decide; case_bool_decide; simplify_eq; done.
Qed.

Lemma od_wf_cons k v d : od_wf ((k, v) :: d) <-> od_get k d = None /\ od_wf d.
Proof.
  unfold od_wf. simpl. rewrite andb_true_iff, negb_true_iff.
  unfold od_mem. destruct (od_get k d); intuition congruence.
Qed.

Lemma od_wf_set k v d : od_wf d -> od_wf (od_set k v d).
Proof.
  induction d as [|[k0 v0] d IH]; simpl; intros Hwf.
  - done.
  - apply od_wf_cons in Hwf as [Hk Hd]. case_decide; simplify_eq.
    + by apply od_wf_cons.
    + apply od_wf_cons. split; [|auto]. by rewrite od_get_set_ne.
Qed.

Lemma od_wf_update d src : od_wf d -> od_wf (od_update d src).
Proof.
  unfold od_update. revert d.
  induction src as [|[k v] src IH]; simpl; intros d Hd; [done|].
  apply IH. by apply od_wf_set.
Qed.

Lemma od_get_update k d src :
  od_wf src ->
  od_get k (od_update d src) =
    match od_get k src with Some v => Some v | None => od_get k d end.
Proof.
  unfold od_update. revert d.
  induction src as [|[k0 v0] src IH]; simpl; intros d Hwf; [done|].
  apply od_wf_cons in Hwf as [Hk Hsrc].
  rewrite IH by done. case_decide; simplify_eq.
  - by rewrite Hk, od_get_set_eq.
  - by rewrite od_get_set_ne.
Qed.

Lemma od_mem_update k d src :
  od_mem k (od_update d src) = od_mem k src || od_mem k d.
Proof.
  unfold od_update. revert d.
  induction src as [|[k0 v0] src IH]; simpl; intros d; [done|].
  rewrite IH, od_mem_set. unfold od_mem at 3. simpl.
  case_decide; case_bool_decide; simplify_eq; simpl.
  - by rewrite orb_true_r.
  - done.
Qed.
End odict.

(** ** The extras merge *)

Lemma merge_record_extra_cons k v record target reserved :
  merge_record_extra ((k, v) :: record) target reserved =
    merge_record_extra record
      (if skipped reserved k then target else od_set k v target) reserved.
Proof.
  unfold merge_record_extra, skipped. simpl.
  by destruct (od_mem k reserved), (key_startswith_underscore k).
Qed.

(** A skipped name keeps the binding the target had. *)
Lemma merge_get_skipped record target reserved k :
  skipped reserved k = true ->
  od_get k (merge_record_extra record target reserved) = od_get k target.
Proof.
  intros Hk. revert target.
  induction record as [|[k0 v0] record IH]; intros target; [done|].
  rewrite merge_record_extra_cons, IH.
  destruct (skipped reserved k0) eqn:Hk0; [done|].
  apply od_get_set_ne. congruence.
Qed.

Lemma merge_get record target reserved k :
  od_wf record ->
  od_get k (merge_record_extra record target reserved) =
    if skipped reserved k then od_get k target
    else match od_get k record with
         | Some v => Some v
         | None => od_get k target
         end.
Proof.
  intros Hwf. destruct (skipped reserved k) eqn:Hk.
  { by apply merge_get_skipped. }
  revert target Hwf.
  induction record as [|[k0 v0] record IH]; intros target Hwf; [done|].
  apply od_wf_cons in Hwf as [Hk0 Hwf].
  rewrite merge_record_extra_cons, IH by done. simpl.
  case_decide; simplify_eq.
  - by rewrite Hk0, Hk, od_get_set_eq.
  - destruct (od_get k record); [done|].
    destruct (skipped reserved k0); [done|]. by apply od_get_set_ne.
Qed.

Lemma merge_wf record target reserved :
  od_wf target -> od_wf (merge_record_extra record target reserved).
Proof.
  revert target.
  induction record as [|[k0 v0] record IH]; intros target Hwf; [done|].
  rewrite merge_record_extra_cons. apply IH.
  destruct (skipped reserved k0); [done|]. by apply od_wf_set.
Qed.

(** ** The loop over the parsed fields *)

Lemma add_field_field_key self h record lr field :
  add_field self h record lr field =
    match field_key self h field with
    | Ok k => Ok (od_set k (dict_get record (KStr field)) lr)
    | Raise e => Raise e
    end.
Proof.
  unfold add_field, field_key.
  by destruct (od_get (KStr field) (deref h (rename_fields self))).
Qed.

Lemma add_required_spec self h record fields lr :
  forallb (fun f => is_Ok (field_key self h f)) fields = true ->
  exists lr',
    add_required self h record lr fields = Ok lr' /\
    (od_wf lr -> od_wf lr') /\
    (forall k, od_mem k lr = true -> od_mem k lr' = true) /\
    forall k,
      od_get k lr' =
        match last_field (stored_under self h k) fields with
        | Some f => Some (dict_get record (KStr f))
        | None => od_get k lr
        end.
Proof.
  revert lr.
  induction fields as [|f fields IH]; simpl; intros lr Hok.
  { by exists lr. }
  apply andb_true_iff in Hok as [Hf Hok].
  rewrite add_field_field_key.
  destruct (field_key self h f) as [kf|] eqn:Hkf; [|done].
  destruct (IH (od_set kf (dict_get record (KStr f)) lr) Hok)
    as (lr' & Hrun & Hwf & Hmem & Hget).
  exists lr'. split; [done|]. split; [|split].
  - intros Hlr. by apply Hwf, od_wf_set.
  - intros k Hk. apply Hmem. rewrite od_mem_set, Hk. apply orb_true_r.
  - intros k. rewrite Hget.
    destruct (last_field (stored_under self h k) fields); [done|].
    unfold stored_under at 1. rewrite Hkf.
    rewrite od_get_set. case_bool_decide; case_decide; simplify_eq; done.
Qed.

(** ** Assembly of the output object *)

Lemma add_fields_spec `{Host} self h record md injected :
  fields_storable self h = true ->
  od_wf record ->
  od_wf (deref h (static_fields self)) ->
  od_wf (deref h md) ->
  injected_timestamp self h record = Ok injected ->
  exists out,
    add_fields self h [] record md = Ok out /\
    od_wf out /\
    forall k, od_get k out = by_precedence self h record md injected k.
Proof.
  intros Hst Hrec Hsf Hmd Hinj. unfold add_fields.
  destruct (add_required_spec self h record (_required_fields self) [] Hst)
    as (lr1 & -> & Hwf1 & _ & Hget1).
  set (lr4 := merge_record_extra _ _ _).
  assert (Hwf4 : od_wf lr4).
  { apply merge_wf, od_wf_update, od_wf_update. by apply Hwf1. }
  assert (Hget4 : forall k,
             od_get k lr4 = by_precedence self h record md None k).
  { intros k. unfold lr4, by_precedence, extra_binding, template_binding.
    rewrite merge_get, !od_get_update, Hget1 by done. simpl.
    destruct (skipped (_skip_fields self) k); simpl;
      repeat (case_match; simpl; simplify_eq; try done). }
  unfold injected_timestamp in Hinj.
  destruct (timestamp_key self h) as [tk|]; simplify_eq.
  - destruct (getattr record "created") as [created|]; [|done].
    destruct (fromtimestamp_utc created) as [dt|]; simplify_eq.
    eexists. split; [done|]. split; [by apply od_wf_set|].
    intros k. rewrite od_get_set. unfold by_precedence at 1. simpl.
    case_decide; [done|]. apply Hget4.
  - by exists lr4.
Qed.

(** C1 (amended).  For every record, [add_fields] assembles the output
    object by a fixed precedence: the parsed template fields first (the
    record's value, null when missing), overwritten by the static fields,
    then by the message fields, then by the non-skipped extra attributes, and
    last, when timestamp injection is on, by the timestamp key: the
    configured string, or ["timestamp"] when the flag is simply true.  The
    value stored there is the UTC datetime of the record's creation time;
    the module's encoder turns it into its ISO-8601 string on
    serialization. *)
Theorem add_fields_precedence `{Host} self h record md injected :
  fields_storable self h = true ->
  od_wf record ->
  od_wf (deref h (static_fields self)) ->
  od_wf (deref h md) ->
  injected_timestamp self h record = Ok injected ->
  exists out,
    add_fields self h [] record md = Ok out /\
    (forall k, od_get k out = by_precedence self h record md injected k) /\
    (injected = None -> truthy h (timestamp self) = false) /\
    (forall tk tv, injected = Some (tk, tv) ->
       truthy h (timestamp self) = true /\
       tk = match timestamp self with
            | VStr s => KStr s
            | _ => KStr "timestamp"
            end /\
       od_get tk out = Some tv /\
       exists created dt,
         getattr record "created" = Ok created /\
         fromtimestamp_utc created = Ok dt /\
         tv = VTemporal dt /\
         JsonEncoder.default h tv = Ok (VStr (isoformat dt))).
Proof.
  intros Hst Hrec Hsf Hmd Hinj.
  destruct (add_fields_spec self h record md injected)
    as (out & Hrun & _ & Hget); try done.
  exists out. split; [done|]. split; [done|].
  unfold injected_timestamp, timestamp_key in Hinj.
  destruct (truthy h (timestamp self)) eqn:Hts.
  - destruct (getattr record "created") as [created|] eqn:Hc; [|done].
    destruct (fromtimestamp_utc created) as [dt|] eqn:Hdt; [|done].
    simplify_eq. split; [done|]. intros tk tv [= <- <-].
    split; [done|]. split; [done|]. split.
    + rewrite Hget. unfold by_precedence. simpl. by case_decide.
    + by exists created, dt.
  - simplify_eq. split; [done|]. intros tk tv [=].
Qed.

(** The static field [service = x] and the message payload [service = y]
    give [service = y]; the [timestamp] key holds the datetime. *)
Lemma add_fields_precedence_witness :
  exists self h out,
    __init__ (H := Example.host) Example.service_kwargs Example.service_heap
      = (Ok self, h) /\
    add_fields (H := Example.host) self h [] Example.service_record 1%positive
      = Ok out /\
    od_get (KStr "service") (deref h (static_fields self))
      = Some (VStr "x") /\
    od_get (KStr "service") out = Some (VStr "y") /\
    od_get (KStr "timestamp") out
      = Some (VTemporal {| isoformat := "2001-09-09T01:46:40+00:00" |}).
Proof.
  run_init Example.host Example.service_kwargs Example.service_heap.
  match type of Hinit with
  | _ = (Ok ?self, ?h) =>
      exists self, h;
      destruct (add_fields_precedence (H := Example.host) self h
                  Example.service_record 1%positive
                  (Some (KStr "timestamp",
                         VTemporal
                           {| isoformat := "2001-09-09T01:46:40+00:00" |})))
        as (out & Hrun & Hget & _);
      [vm_compute; reflexivity ..|]
  end.
  exists out. split; [exact Hinit|]. split; [exact Hrun|].
  split; [vm_compute; reflexivity|]. rewrite !Hget.
  split; vm_compute; reflexivity.
Defined.

(** C1, as stated, fails: with [timestamp=True] the output object holds a
    datetime under [timestamp], not a string. *)
Lemma add_fields_timestamp_not_a_string :
  exists self h out,
    __init__ (H := Example.host) Example.service_kwargs Example.service_heap
      = (Ok self, h) /\
    add_fields (H := Example.host) self h [] Example.service_record 1%positive
      = Ok out /\
    od_get (KStr "timestamp") out
      = Some (VTemporal {| isoformat := "2001-09-09T01:46:40+00:00" |}) /\
    forall s, od_get (KStr "timestamp") out <> Some (VStr s).
Proof.
  eexists _, _, _. split; [vm_compute; reflexivity|].
  split; [vm_compute; reflexivity|]. split; [vm_compute; reflexivity|].
  intros s. vm_compute. discriminate.
Qed.

(** ** The template scan *)

Lemma strip_prefix_app p s : strip_prefix p (p ++ s) = Some s.
Proof.
  induction p as [|a p IH]; simpl; [done|].
  by rewrite Ascii.eqb_refl.
Qed.

Lemma lazy_group_name close name rest :
  name <> [] ->
  forallb (fun c => negb (Ascii.eqb c newline) && negb (Ascii.eqb c close))
    name = true ->
  lazy_group close (name ++ close :: rest) = Some name.
Proof.
  induction name as [|c name IH]; [done|]. intros _ Hok.
  simpl in Hok. apply andb_true_iff in Hok as [Hc Hok].
  apply andb_true_iff in Hc as [Hnl _]. apply negb_true_iff in Hnl.
  cbn [app lazy_group]. rewrite Hnl.
  destruct name as [|d name].
  - simpl. by rewrite Ascii.eqb_refl.
  - pose proof Hok as Hd. simpl in Hd.
    apply andb_true_iff in Hd as [Hd _].
    apply andb_true_iff in Hd as [_ Hd]. apply negb_true_iff in Hd.
    change ((d :: name) ++ close :: rest)
      with (d :: (name ++ close :: rest)) at 1.
    cbv iota beta. rewrite Hd.
    change (d :: (name ++ close :: rest))
      with ((d :: name) ++ close :: rest).
    by rewrite IH.
Qed.

Lemma match_at_placeholder pat name rest :
  name_ok pat name = true ->
  match_at pat (placeholder pat name ++ rest) = Some name.
Proof.
  intros Hok. unfold match_at, placeholder.
  rewrite <- !app_assoc, strip_prefix_app. simpl.
  unfold name_ok in Hok. destruct name as [|c name]; [done|].
  by apply lazy_group_name.
Qed.

Lemma findall_from_skip pat xs rest :
  findall_from pat (length xs) (xs ++ rest) = findall_from pat 0 rest.
Proof. induction xs as [|x xs IH]; simpl; [by destruct rest|done]. Qed.

Lemma findall_from_literal pat text rest :
  literal_ok pat text = true ->
  findall_from pat 0 (text ++ rest) = findall_from pat 0 rest.
Proof.
  unfold literal_ok. destruct (pat_open pat) as [|o os] eqn:Hopen; [done|].
  induction text as [|c text IH]; [done|]. simpl. intros Hok.
  apply andb_true_iff in Hok as [Hc Hok]. apply negb_true_iff in Hc.
  unfold match_at. rewrite Hopen. simpl. rewrite Hc. by apply IH.
Qed.

Lemma findall_from_placeholder pat name rest :
  name_ok pat name = true ->
  pat_open pat <> [] ->
  findall_from pat 0 (placeholder pat name ++ rest)
    = name :: findall_from pat 0 rest.
Proof.
  intros Hok Hopen.
  pose proof (match_at_placeholder pat name rest Hok) as Hm.
  unfold placeholder in *.
  destruct (pat_open pat) as [|o os] eqn:Ho; [done|].
  cbn [app findall_from] in *. rewrite Hm. f_equal.
  rewrite <- !app_assoc. simpl.
  replace (os ++ name ++ pat_close pat :: rest)
    with ((os ++ name ++ [pat_close pat]) ++ rest)
    by (by rewrite <- !app_assoc).
  replace (length (pat_open pat) + length name)
    with (length (os ++ name ++ [pat_close pat]))
    by (rewrite Ho, !length_app; simpl; lia).
  apply findall_from_skip.
Qed.

Lemma findall_from_render pat lead segments :
  pat_open pat <> [] ->
  literal_ok pat lead = true ->
  forallb (fun seg => name_ok pat seg.1 && literal_ok pat seg.2) segments
    = true ->
  findall_from pat 0 (render pat lead segments) = map fst segments.
Proof.
  intros Hopen Hlead Hsegs. unfold render.
  rewrite findall_from_literal by done. clear lead Hlead.
  induction segments as [|[name text] segments IH]; [done|].
  simpl in *. apply andb_true_iff in Hsegs as [Hseg Hsegs].
  apply andb_true_iff in Hseg as [Hname Htext].
  rewrite <- app_assoc, findall_from_placeholder by done.
  rewrite findall_from_literal by done. f_equal. by apply IH.
Qed.

Lemma render_nil_inv pat lead segments :
  pat_open pat <> [] -> render pat lead segments = [] -> segments = [].
Proof.
  intros Hopen Hnil. destruct segments as [|[name text] segments]; [done|].
  unfold render, placeholder in Hnil. simpl in Hnil.
  apply app_eq_nil in Hnil as [_ Hnil]. apply app_eq_nil in Hnil as [Hnil _].
  apply app_eq_nil in Hnil as [Hnil _]. by apply app_eq_nil in Hnil as [? _].
Qed.

Lemma style_pattern_open st pat :
  style_pattern st = Some pat -> pat_open pat <> [].
Proof. destruct st; intros [= <-]; done. Qed.

Lemma parse_style_pattern self pat :
  style_pattern (_style self) = Some pat ->
  parse self =
    match _fmt self with
    | Some f => if String.eqb f "" then Ok [] else Ok (findall pat f)
    | None => Ok []
    end.
Proof. unfold parse. destruct (_style self); intros [= <-]; done. Qed.

(** C5.  For each supported style, [parse] returns exactly the names
    enclosed by that style's placeholders, in their order of appearance in
    the template. *)
Theorem parse_placeholders self pat lead segments :
  style_pattern (_style self) = Some pat ->
  _fmt self = Some (string_of_list_ascii (render pat lead segments)) ->
  literal_ok pat lead = true ->
  forallb (fun seg => name_ok pat seg.1 && literal_ok pat seg.2) segments
    = true ->
  parse self = Ok (map (fun seg => string_of_list_ascii seg.1) segments).
Proof.
  intros Hpat Hfmt Hlead Hsegs.
  pose proof (style_pattern_open _ _ Hpat) as Hopen.
  rewrite (parse_style_pattern _ _ Hpat), Hfmt.
  destruct (String.eqb _ "") eqn:Hempty.
  - apply String.eqb_eq in Hempty.
    apply (f_equal list_ascii_of_string) in Hempty.
    rewrite list_ascii_of_string_of_list_ascii in Hempty. simpl in Hempty.
    by rewrite (render_nil_inv _ _ _ Hopen Hempty).
  - unfold findall. rewrite list_ascii_of_string_of_list_ascii.
    rewrite findall_from_render by done. by rewrite map_map.
Qed.

(** Templates with the fields [b] then [a], in the three styles. *)
Lemma parse_placeholders_witness :
  parse (Example.formatter_of PercentStyle (Some "%(b)s %(a)s"))
    = Ok ["b"; "a"] /\
  parse (Example.formatter_of StrFormatStyle (Some "{b}s {a}s"))
    = Ok ["b"; "a"] /\
  parse (Example.formatter_of StringTemplateStyle (Some "${b}s ${a}s"))
    = Ok ["b"; "a"] /\
  parse (Example.formatter_of PercentStyle (Some "%(a)s")) = Ok ["a"].
Proof.
  split; [|split; [|split]].
  - exact (parse_placeholders
             (Example.formatter_of PercentStyle (Some "%(b)s %(a)s"))
             _ [] Example.b_then_a eq_refl eq_refl eq_refl eq_refl).
  - exact (parse_placeholders
             (Example.formatter_of StrFormatStyle (Some "{b}s {a}s"))
             _ [] Example.b_then_a eq_refl eq_refl eq_refl eq_refl).
  - exact (parse_placeholders
             (Example.formatter_of StringTemplateStyle (Some "${b}s ${a}s"))
             _ [] Example.b_then_a eq_refl eq_refl eq_refl eq_refl).
  - exact (parse_placeholders
             (Example.formatter_of PercentStyle (Some "%(a)s"))
             _ [] [(["a"]%char, ["s"]%char)] eq_refl eq_refl eq_refl eq_refl).
Defined.

(** ** A formatter without a template *)

Lemma STYLES_supported c st : STYLES c = Some st -> st <> OtherStyle.
Proof. unfold STYLES. repeat case_match; naive_solver. Qed.

(** What the constructor stores: the parsed fields of the stored template
    and the skip-set made of them and of the reserved attributes. *)
Lemma init_fields `{Host} kw h self h' :
  __init__ kw h = (Ok self, h') ->
  parse self = Ok (_required_fields self) /\
  _skip_fields self =
    od_update (od_of_names (map KStr (_required_fields self)))
      (reserved_attrs self) /\
  reserved_attrs self =
    od_of_names (default RESERVED_ATTRS (kw_reserved_attrs kw)) /\
  exists st f,
    Formatter_init (kw_fmt kw) (default "%" (kw_style kw))
      (default true (kw_validate kw)) = Ok (st, f) /\
    _style self = st /\ _fmt self = Some f.
Proof.
  unfold __init__. intros Hinit.
  repeat (case_match; simplify_eq; try done).
  all: simpl; repeat split; try done; eauto.
  all: match goal with Hp : parse _ = Ok _ |- _ => exact Hp end.
Qed.

(** Constructed without a template, the formatter stores the default
    template of its style, and the parsed field list is [message]. *)
Lemma init_without_template `{Host} kw h self h' :
  kw_fmt kw = None \/ kw_fmt kw = Some "" ->
  __init__ kw h = (Ok self, h') ->
  _fmt self = Some (default_format (_style self)) /\
  _required_fields self = ["message"].
Proof.
  intros Hfmt Hinit.
  destruct (init_fields _ _ _ _ Hinit)
    as (Hparse & _ & _ & st & f & Hbase & Hst & Hf).
  unfold Formatter_init in Hbase.
  destruct (STYLES _) as [st'|] eqn:Hstyle; [|done].
  assert (f = default_format st /\ st' = st) as [-> ->].
  { destruct Hfmt as [Hnone | Hnone]; rewrite Hnone in Hbase; simpl in Hbase.
    all: match type of Hbase with
         | (if ?b then _ else _) = _ => destruct b
         end; [discriminate Hbase|]; injection Hbase as <- <-; done. }
  apply STYLES_supported in Hstyle.
  split; [by rewrite Hf, Hst|].
  unfold parse in Hparse. rewrite Hst, Hf in Hparse.
  destruct st; try done; vm_compute in Hparse;
    injection Hparse as Hparse; symmetry; exact Hparse.
Qed.

(** C6 (amended).  If the template stored on the formatter is absent or
    empty, [parse] returns the empty field list, and the output object then
    has no template field: every key comes from the static fields, the
    message payload, the extra attributes or the injected timestamp.  A
    formatter constructed without a template string is not in that case: the
    base class stores the default template of the style, and the parsed field
    list is [message]. *)
Theorem parse_without_template `{Host} self h record md injected :
  _fmt self = None \/ _fmt self = Some "" ->
  _style self <> OtherStyle ->
  parse self = Ok [] /\
  (parse self = Ok (_required_fields self) ->
   od_wf record ->
   od_wf (deref h (static_fields self)) ->
   od_wf (deref h md) ->
   injected_timestamp self h record = Ok injected ->
   exists out,
     add_fields self h [] record md = Ok out /\
     forall k,
       od_get k out =
         first_of [
           match injected with
           | Some (tk, tv) => if decide (tk = k) then Some tv else None
           | None => None
           end;
           extra_binding self record k;
           od_get k (deref h md);
           od_get k (deref h (static_fields self)) ]) /\
  (forall kw h0 self' h',
     kw_fmt kw = None \/ kw_fmt kw = Some "" ->
     __init__ kw h0 = (Ok self', h') ->
     _fmt self' = Some (default_format (_style self')) /\
     _required_fields self' = ["message"]).
Proof.
  intros Hfmt Hstyle.
  assert (Hparse : parse self = Ok []).
  { unfold parse. destruct (_style self); try done;
      destruct Hfmt as [-> | ->]; done. }
  split; [done|]. split.
  - rewrite Hparse. intros [= Hreq] Hrec Hsf Hmd Hinj.
    destruct (add_fields_spec self h record md injected)
      as (out & Hrun & _ & Hget); try done.
    { unfold fields_storable. by rewrite <- Hreq. }
    exists out. split; [done|]. intros k. rewrite Hget.
    unfold by_precedence, template_binding. rewrite <- Hreq. simpl.
    repeat (case_match; simpl; try done).
  - intros kw h0 self' h'. apply init_without_template.
Qed.

Lemma parse_without_template_witness :
  parse (Example.formatter_of PercentStyle None) = Ok [] /\
  exists out,
    add_fields (H := Example.host) (Example.formatter_of PercentStyle None)
      Example.service_heap [] Example.service_record 1%positive = Ok out /\
    od_get (KStr "service") out = Some (VStr "y") /\
    od_get (KStr "levelname") out = None /\
    od_get (KStr "message") out = None.
Proof.
  destruct (parse_without_template (H := Example.host)
              (Example.formatter_of PercentStyle None)
              Example.service_heap Example.service_record 1%positive None)
    as (Hparse & Hout & _).
  - by left.
  - done.
  - split; [exact Hparse|].
    destruct Hout as (out & Hrun & Hget); [vm_compute; reflexivity ..|].
    exists out. split; [exact Hrun|]. rewrite !Hget.
    repeat split; vm_compute; reflexivity.
Defined.

(** C6, as stated, fails: a formatter constructed with no template has the
    parsed field list [message]. *)
Lemma init_without_template_parses_message :
  exists self h,
    __init__ (H := Example.host) Example.no_kwargs ∅ = (Ok self, h) /\
    _fmt self = Some "%(message)s" /\
    parse self = Ok ["message"] /\
    parse self <> Ok [] /\
    _required_fields self = ["message"].
Proof.
  eexists _, _. split; [vm_compute; reflexivity|].
  repeat split; try (vm_compute; reflexivity). vm_compute. discriminate.
Qed.

(** ** The skip-set *)

Lemma od_mem_of_names names k :
  od_mem k (od_of_names names) = bool_decide (k ∈ names).
Proof.
  unfold od_of_names. rewrite od_mem_update, orb_false_r.
  induction names as [|k0 names IH].
  - symmetry. apply bool_decide_eq_false_2. set_solver.
  - unfold od_mem in *. simpl. destruct (decide (k0 = k)) as [->|Hne].
    + symmetry. apply bool_decide_eq_true_2. set_solver.
    + rewrite IH. apply bool_decide_ext. rewrite elem_of_cons.
      intuition congruence.
Qed.

Lemma init_skip_fields `{Host} kw h self h' k :
  __init__ kw h = (Ok self, h') ->
  od_mem k (_skip_fields self) =
    od_mem k (reserved_attrs self)
    || bool_decide (k ∈ map KStr (_required_fields self)).
Proof.
  intros Hinit. destruct (init_fields _ _ _ _ Hinit) as (_ & -> & _).
  by rewrite od_mem_update, od_mem_of_names.
Qed.

Lemma init_skipped `{Host} kw h self h' k :
  __init__ kw h = (Ok self, h') ->
  od_mem k (reserved_attrs self) = true \/
  (exists f, k = KStr f /\ f ∈ _required_fields self) \/
  key_startswith_underscore k = true ->
  skipped (_skip_fields self) k = true.
Proof.
  intros Hinit Hk. unfold skipped. rewrite (init_skip_fields _ _ _ _ _ Hinit).
  destruct Hk as [-> | [(f & -> & Hf) | ->]]; [done| |by rewrite orb_true_r].
  rewrite (bool_decide_eq_true_2 (KStr f ∈ _)).
  - by rewrite orb_true_r.
  - apply list_elem_of_fmap. eauto.
Qed.

(** C3.  An extra attribute whose name is in the reserved-attribute set, or
    in the parsed field list, or starts with an underscore, is left out by
    the extras merge: the merge keeps the binding the output object had for
    that name, so the attribute neither overrides it nor adds a second
    entry (the keys of the output object stay pairwise distinct). *)
Theorem reserved_field_isolation `{Host} kw h self h' record target k :
  __init__ kw h = (Ok self, h') ->
  od_mem k (reserved_attrs self) = true \/
  (exists f, k = KStr f /\ f ∈ _required_fields self) \/
  key_startswith_underscore k = true ->
  extra_binding self record k = None /\
  od_get k (merge_record_extra record target (_skip_fields self))
    = od_get k target /\
  (od_wf target ->
   od_wf (merge_record_extra record target (_skip_fields self))).
Proof.
  intros Hinit Hk. pose proof (init_skipped _ _ _ _ _ Hinit Hk) as Hskip.
  split; [|split].
  - unfold extra_binding. by rewrite Hskip.
  - by apply merge_get_skipped.
  - apply merge_wf.
Qed.

(** The record's [module] attribute does not reach an output object that
    already has a [module] entry. *)
Lemma reserved_field_isolation_witness :
  exists self h,
    __init__ (H := Example.host) Example.rename_kwargs
      (Example.rename_heap "severity") = (Ok self, h) /\
    od_get (KStr "module") (Example.record_with_extra "user" (VInt 7))
      = Some (VStr "app") /\
    od_get (KStr "module")
      (merge_record_extra (Example.record_with_extra "user" (VInt 7))
         [(KStr "module", VStr "kept")] (_skip_fields self))
      = Some (VStr "kept").
Proof.
  run_init Example.host Example.rename_kwargs (Example.rename_heap "severity").
  match type of Hinit with
  | _ = (Ok ?self, ?h) =>
      exists self, h;
      destruct (reserved_field_isolation (H := Example.host) _ _ self h
                  (Example.record_with_extra "user" (VInt 7))
                  [(KStr "module", VStr "kept")] (KStr "module") Hinit)
        as (_ & Hget & _);
      [left; vm_compute; reflexivity|]
  end.
  split; [exact Hinit|]. split; [vm_compute; reflexivity|].
  rewrite Hget. reflexivity.
Defined.

(** ** Renamed fields *)

Lemma by_precedence_template self h record md injected k v :
  match injected with
  | Some (tk, _) => tk <> k
  | None => True
  end ->
  extra_binding self record k = None ->
  od_get k (deref h md) = None ->
  od_get k (deref h (static_fields self)) = None ->
  template_binding self h record k = v ->
  by_precedence self h record md injected k = v.
Proof.
  intros Hinj Hextra Hmd Hsf Htpl. unfold by_precedence.
  rewrite Hextra, Hmd, Hsf, Htpl.
  destruct injected as [[tk tv]|]; simpl; [|by destruct v].
  case_decide; [done|by destruct v].
Qed.

(** C7 (amended).  A parsed field [f] with a rename-map entry [g] is
    stored under the key [g], with the value the record has under [f]; when
    no later source writes [g] or [f] (no static field, message field or
    extra attribute of those names, neither is the timestamp key, and no
    later parsed field is stored under them), the output object has [g]
    bound to that value and has no key [f]. *)
Theorem rename_precedence `{Host} kw h0 h1 self h record md injected
    f g renamed :
  __init__ kw h0 = (Ok self, h1) ->
  fields_storable self h = true ->
  od_wf record ->
  od_wf (deref h (static_fields self)) ->
  od_wf (deref h md) ->
  injected_timestamp self h record = Ok injected ->
  od_get (KStr f) (deref h (rename_fields self)) = Some renamed ->
  key_of_value renamed = Ok g ->
  last_field (stored_under self h g) (_required_fields self) = Some f ->
  last_field (stored_under self h (KStr f)) (_required_fields self) = None ->
  match injected with
  | Some (tk, _) => tk <> g /\ tk <> KStr f
  | None => True
  end ->
  extra_binding self record g = None ->
  od_get g (deref h md) = None ->
  od_get (KStr f) (deref h md) = None ->
  od_get g (deref h (static_fields self)) = None ->
  od_get (KStr f) (deref h (static_fields self)) = None ->
  field_key self h f = Ok g /\
  exists out,
    add_fields self h [] record md = Ok out /\
    od_get g out = Some (dict_get record (KStr f)) /\
    od_get (KStr f) out = None.
Proof.
  intros Hinit Hst Hrec Hsf Hmd Hinj Hrn Hkey Hlast Hnone Hts Hextra
    Hmd_g Hmd_f Hsf_g Hsf_f.
  split. { unfold field_key. by rewrite Hrn. }
  destruct (add_fields_spec self h record md injected)
    as (out & Hrun & _ & Hget); try done.
  exists out. split; [done|]. rewrite !Hget. split.
  - apply by_precedence_template; try done.
    + destruct injected as [[tk tv]|]; [by destruct Hts|done].
    + unfold template_binding. by rewrite Hlast.
  - apply by_precedence_template; try done.
    + destruct injected as [[tk tv]|]; [by destruct Hts|done].
    + unfold extra_binding. erewrite init_skipped; [done|done|].
      right; left. exists f. split; [done|].
      clear -Hlast. induction (_required_fields self) as [|f' fields IH];
        [done|]. simpl in Hlast.
      destruct (last_field _ fields) eqn:Hl.
      * simplify_eq. right. by apply IH.
      * case_match; simplify_eq. left.
    + unfold template_binding. by rewrite Hnone.
Qed.

(** [rename_fields = {"levelname": "severity"}]: the output has
    [severity = INFO] and no [levelname]. *)
Lemma rename_precedence_witness :
  exists self h out,
    __init__ (H := Example.host) Example.rename_kwargs
      (Example.rename_heap "severity") = (Ok self, h) /\
    add_fields (H := Example.host) self h []
      (Example.record_with_extra "user" (VInt 7)) 4%positive = Ok out /\
    od_get (KStr "severity") out = Some (VStr "INFO") /\
    od_get (KStr "levelname") out = None.
Proof.
  run_init Example.host Example.rename_kwargs (Example.rename_heap "severity").
  match type of Hinit with
  | _ = (Ok ?self, ?h) =>
      exists self, h;
      destruct (rename_precedence (H := Example.host) _ _ _ self h
                  (Example.record_with_extra "user" (VInt 7)) 4%positive None
                  "levelname" (KStr "severity") (VStr "severity") Hinit)
        as (_ & out & Hrun & Hg & Hf);
      [vm_compute; reflexivity ..|]
  end.
  exists out. split; [exact Hinit|]. split; [exact Hrun|].
  split; [exact Hg|exact Hf].
Defined.

(** C7, as stated, fails.  With [rename_fields = {"levelname": "severity"}]
    and the template [%(levelname)s %(message)s]: an extra attribute
    [severity = "high"] leaves [severity] bound to [high], not to the level
    name; and a message payload with a key [levelname] leaves the key
    [levelname] in the output object. *)
Lemma renamed_key_overwritten_and_original_kept :
  exists self h,
    __init__ (H := Example.host) Example.rename_kwargs
      (Example.rename_heap "severity") = (Ok self, h) /\
    _required_fields self = ["levelname"; "message"] /\
    od_get (KStr "levelname") (deref h (rename_fields self))
      = Some (VStr "severity") /\
    (exists out,
       add_fields (H := Example.host) self h []
         (Example.record_with_extra "severity" (VStr "high")) 4%positive
         = Ok out /\
       dict_get (Example.record_with_extra "severity" (VStr "high"))
         (KStr "levelname") = VStr "INFO" /\
       od_get (KStr "severity") out = Some (VStr "high") /\
       od_get (KStr "severity") out <> Some (VStr "INFO")) /\
    (exists out,
       add_fields (H := Example.host) self
         (<[4%positive := [(KStr "levelname", VStr "payload")]]> h) []
         (Example.record_with_extra "user" (VInt 7)) 4%positive = Ok out /\
       od_get (KStr "severity") out = Some (VStr "INFO") /\
       od_get (KStr "levelname") out = Some (VStr "payload") /\
       od_mem (KStr "levelname") out = true).
Proof.
  eexists _, _. split; [vm_compute; reflexivity|].
  split; [vm_compute; reflexivity|]. split; [vm_compute; reflexivity|].
  split.
  - eexists. split; [vm_compute; reflexivity|].
    split; [vm_compute; reflexivity|]. split; [vm_compute; reflexivity|].
    vm_compute. discriminate.
  - eexists. split; [vm_compute; reflexivity|].
    split; [vm_compute; reflexivity|]. split; vm_compute; reflexivity.
Qed.

Lemma last_field_is_Some p fields f :
  f ∈ fields -> p f = true -> is_Some (last_field p fields).
Proof.
  induction fields as [|f' fields IH]; intros Hf Hp; [by inversion Hf|].
  simpl. destruct (last_field p fields); [done|].
  apply elem_of_cons in Hf as [<- | Hf]; [by rewrite Hp|].
  by destruct (IH Hf Hp).
Qed.

(** C10 (amended).  Renaming redirects only the key a built-in value is
    stored under; the skip-set holds the original field names.  For a
    rename-map entry from a parsed field [f] to a name [g] that is neither a
    reserved attribute nor a parsed field, that does not start with an
    underscore and is not the timestamp key, a record carrying an extra
    attribute named [g] yields an output whose key [g] holds the extra
    attribute's value: the extras merge overwrites the renamed built-in
    value. *)
Theorem extra_overwrites_renamed `{Host} kw h0 h1 self h record md injected
    f g v :
  __init__ kw h0 = (Ok self, h1) ->
  fields_storable self h = true ->
  od_wf record ->
  od_wf (deref h (static_fields self)) ->
  od_wf (deref h md) ->
  injected_timestamp self h record = Ok injected ->
  f ∈ _required_fields self ->
  od_get (KStr f) (deref h (rename_fields self)) = Some (VStr g) ->
  od_mem (KStr g) (reserved_attrs self) = false ->
  g ∉ _required_fields self ->
  key_startswith_underscore (KStr g) = false ->
  match injected with
  | Some (tk, _) => tk <> KStr g
  | None => True
  end ->
  od_get (KStr g) record = Some v ->
  is_Some (template_binding self h record (KStr g)) /\
  exists out,
    add_fields self h [] record md = Ok out /\
    od_get (KStr g) out = Some v.
Proof.
  intros Hinit Hst Hrec Hsf Hmd Hinj Hf Hrn Hres Hg Hus Hts Hextra.
  split.
  - unfold template_binding.
    destruct (last_field_is_Some (stored_under self h (KStr g))
                (_required_fields self) f Hf) as [f' ->]; [|done].
    unfold stored_under, field_key. rewrite Hrn. simpl.
    by apply bool_decide_eq_true_2.
  - destruct (add_fields_spec self h record md injected)
      as (out & Hrun & _ & Hget); try done.
    exists out. split; [done|]. rewrite Hget. unfold by_precedence.
    assert (extra_binding self record (KStr g) = Some v) as ->.
    { unfold extra_binding, skipped.
      rewrite (init_skip_fields _ _ _ _ _ Hinit), Hres, Hus, Hextra.
      rewrite bool_decide_eq_false_2; [done|].
      intros (g' & [= <-] & Hin)%list_elem_of_fmap. done. }
    destruct injected as [[tk tv]|]; simpl; [|done].
    by case_decide.
Qed.

(** [rename_fields = {"levelname": "severity"}] and an extra attribute
    [severity = high]: the output has [severity = high]. *)
Lemma extra_overwrites_renamed_witness :
  exists self h out,
    __init__ (H := Example.host) Example.rename_kwargs
      (Example.rename_heap "severity") = (Ok self, h) /\
    add_fields (H := Example.host) self h []
      (Example.record_with_extra "severity" (VStr "high")) 4%positive
      = Ok out /\
    od_get (KStr "severity") out = Some (VStr "high").
Proof.
  run_init Example.host Example.rename_kwargs (Example.rename_heap "severity").
  match type of Hinit with
  | _ = (Ok ?self, ?h) =>
      exists self, h;
      destruct (extra_overwrites_renamed (H := Example.host) _ _ _ self h
                  (Example.record_with_extra "severity" (VStr "high"))
                  4%positive None "levelname" "severity" (VStr "high") Hinit)
        as (_ & out & Hrun & Hg)
  end.
  all: try (vm_compute; reflexivity).
  - apply list_elem_of_In. simpl. auto.
  - intros Hin%list_elem_of_In. simpl in Hin.
    destruct Hin as [Hin | [Hin | []]]; discriminate Hin.
  - exists out. split; [exact Hinit|]. split; [exact Hrun|exact Hg].
Defined.

(** C10, as stated, fails: a rename to [_sev], which is neither reserved nor
    a parsed field, is not overwritten by an extra attribute [_sev]; the
    output keeps the renamed level name. *)
Lemma underscore_rename_not_overwritten :
  exists self h out,
    __init__ (H := Example.host) Example.rename_kwargs
      (Example.rename_heap "_sev") = (Ok self, h) /\
    od_get (KStr "levelname") (deref h (rename_fields self))
      = Some (VStr "_sev") /\
    od_mem (KStr "_sev") (reserved_attrs self) = false /\
    ("_sev" ∉ _required_fields self) /\
    od_get (KStr "_sev") (Example.record_with_extra "_sev" (VStr "high"))
      = Some (VStr "high") /\
    add_fields (H := Example.host) self h []
      (Example.record_with_extra "_sev" (VStr "high")) 4%positive = Ok out /\
    od_get (KStr "_sev") out = Some (VStr "INFO") /\
    od_get (KStr "_sev") out <> Some (VStr "high").
Proof.
  eexists _, _, _. split; [vm_compute; reflexivity|].
  repeat split; try (vm_compute; reflexivity).
  - intros Hin%list_elem_of_In. simpl in Hin.
    destruct Hin as [Hin | [Hin | []]]; discriminate Hin.
  - vm_compute. discriminate.
Qed.

(** ** The value encoder *)

Lemma default_fallback `{Host} h v :
  match v with
  | VTemporal _ | VTraceback _ | VException _ | VClass _ => False
  | _ => True
  end ->
  JsonEncoder.default h v =
    match py_str h v with
    | Ok s => Ok (VStr s)
    | Raise e => if is_Exception e then Ok VNone else Raise e
    end.
Proof. by destruct v. Qed.

(** The branch for exception instances converts without a guard: a failure
    of [str] leaves [default] as it is. *)
Lemma default_exception_unguarded `{Host} h o e :
  obj_str o = Raise e -> JsonEncoder.default h (VException o) = Raise e.
Proof. intros Ho. simpl. by rewrite Ho. Qed.



(** ** The frame of [format] *)

Lemma frame_refl attrs keys md st : frame attrs keys md st st.
Proof. by repeat split. Qed.

Lemma frame_trans attrs keys md st1 st2 st3 :
  frame attrs keys md st1 st2 -> frame attrs keys md st2 st3 ->
  frame attrs keys md st1 st3.
Proof.
  intros (Hs1 & Hr1 & Hw1 & Hd1 & Hh1 & Hk1 & Hm1 & Hf1)
         (Hs2 & Hr2 & Hw2 & Hd2 & Hh2 & Hk2 & Hm2 & Hf2).
  repeat split.
  - congruence.
  - intros k Hk. by rewrite Hr2, Hr1.
  - auto.
  - auto.
  - intros l Hl Hin. rewrite Hh2, Hh1; auto.
  - intros k Hk. by rewrite Hk2, Hk1.
  - auto.
  - auto.
Qed.

Lemma frame_weaken attrs attrs' keys keys' md st st' :
  attrs ⊆ attrs' -> keys ⊆ keys' ->
  frame attrs keys md st st' -> frame attrs' keys' md st st'.
Proof.
  intros Ha Hk (Hs & Hr & Hw & Hd & Hh & Hk1 & Hm & Hf).
  repeat split; auto.
Qed.

Lemma keeps_weaken {A} attrs attrs' keys keys' md (c : M A) :
  attrs ⊆ attrs' -> keys ⊆ keys' ->
  keeps attrs keys md c -> keeps attrs' keys' md c.
Proof. intros Ha Hk Hc st. by eapply frame_weaken. Qed.

Lemma keeps_ret {A} attrs keys md (a : A) : keeps attrs keys md (retM a).
Proof. intros st. apply frame_refl. Qed.

Lemma keeps_lift {A} attrs keys md (f : store -> result A) :
  keeps attrs keys md (liftM f).
Proof. intros st. apply frame_refl. Qed.

Lemma keeps_bind {A B} attrs keys md (c : M A) (k : A -> M B) :
  keeps attrs keys md c -> (forall a, keeps attrs keys md (k a)) ->
  keeps attrs keys md (bindM c k).
Proof.
  intros Hc Hk st. unfold bindM. specialize (Hc st).
  destruct (c st) as [[a|e] st']; [|done].
  eapply frame_trans; [done|]. apply Hk.
Qed.

Lemma keeps_except attrs keys md (c : M unit) :
  keeps attrs keys md c -> keeps attrs keys md (except_AttributeError c).
Proof.
  intros Hc st. unfold except_AttributeError. specialize (Hc st).
  destruct (c st) as [[[]|[]] st']; done.
Qed.

Lemma keeps_set_attr attrs keys md name v :
  KStr name ∈ attrs -> keeps attrs keys md (set_attr name v).
Proof.
  intros Hname st. repeat split; simpl; try done.
  - intros k Hk. apply od_get_set_ne. intros <-. done.
  - apply od_wf_set.
Qed.

Lemma deref_insert h l d l' :
  deref (<[l := d]> h) l' = if decide (l = l') then d else deref h l'.
Proof.
  unfold deref. rewrite lookup_insert. by case_decide.
Qed.

Lemma lookup_fresh (h : heap) : h !! fresh (dom h) = None.
Proof. apply not_elem_of_dom, is_fresh. Qed.

Lemma keeps_new_dict attrs keys md : keeps attrs keys md new_dict.
Proof.
  intros st. unfold new_dict, alloc. simpl.
  pose proof (lookup_fresh (st_heap st)) as Hfresh.
  assert (Hd : forall l,
             deref (<[fresh (dom (st_heap st)) := []]> (st_heap st)) l
             = deref (st_heap st) l).
  { intros l. rewrite deref_insert.
    destruct (decide (fresh (dom (st_heap st)) = l)) as [<-|]; [|done].
    unfold deref. by rewrite Hfresh. }
  repeat split; simpl; try done.
  - intros l [d Hl]. rewrite lookup_insert_ne; [eauto|]. intros <-. congruence.
  - intros l _ [d Hl]. rewrite lookup_insert_ne; [done|]. intros <-. congruence.
  - intros k _. by rewrite Hd.
  - intros k. by rewrite Hd.
  - by rewrite Hd.
Qed.

Lemma keeps_dict_set_at attrs keys md k v :
  KStr k ∈ keys -> keeps attrs keys md (dict_set_at md k v).
Proof.
  intros Hk st. unfold dict_set_at.
  repeat split; simpl; try done.
  - intros l [d Hl]. rewrite lookup_insert. case_decide; eauto.
  - intros l Hne _. by rewrite lookup_insert_ne.
  - intros k' Hk'. rewrite deref_insert. case_decide; [|done].
    apply od_get_set_ne. intros <-. done.
  - intros k' Hk'. rewrite deref_insert. case_decide; [|done].
    rewrite od_mem_set, Hk'. apply orb_true_r.
  - intros Hwf. rewrite deref_insert. case_decide; [|done]. by apply od_wf_set.
Qed.

Lemma keeps_get_self attrs keys md : keeps attrs keys md get_self.
Proof. intros st. apply frame_refl. Qed.

(** Solves [keeps] goals by following the structure of the computation. *)
Ltac keeps_steps :=
  repeat first
    [ apply keeps_ret
    | apply keeps_get_self
    | apply keeps_lift
    | apply keeps_new_dict
    | apply keeps_set_attr; repeat constructor
    | apply keeps_dict_set_at; repeat constructor
    | apply keeps_except
    | apply keeps_bind; [|intros ?]
    | case_match ].

Lemma keeps_message_fields `{Host} keys md :
  keeps [KStr "message"] keys md message_fields.
Proof. unfold message_fields. keeps_steps. Qed.

Lemma keeps_format_asctime `{Host} keys md :
  keeps [KStr "asctime"] keys md format_asctime.
Proof. unfold format_asctime. keeps_steps. Qed.

Lemma keeps_add_exc_info `{Host} attrs md :
  keeps attrs [KStr "exc_info"] md (add_exc_info md).
Proof. unfold add_exc_info. keeps_steps. Qed.

Lemma keeps_add_exc_text attrs md :
  keeps attrs [KStr "exc_info"] md (add_exc_text md).
Proof. unfold add_exc_text. keeps_steps. Qed.

Lemma keeps_add_stack_info `{Host} attrs md :
  keeps attrs [KStr "stack_info"] md (add_stack_info md).
Proof. unfold add_stack_info. keeps_steps. Qed.

(** Inclusion of one explicit list in another. *)
Ltac list_incl :=
  let x := fresh "x" in
  let Hx := fresh "Hx" in
  intros x Hx;
  repeat match goal with
         | Hin : _ ∈ _ :: _ |- _ => apply elem_of_cons in Hin as [-> | Hin]
         | Hin : _ ∈ [] |- _ => by apply elem_of_nil in Hin
         end;
  repeat constructor.

(** The steps after the message fields are known. *)
Lemma keeps_enrichment `{Host} {A} md (k : M A) :
  keeps written_attrs enriched_keys md k ->
  keeps written_attrs enriched_keys md
    (bindM format_asctime (fun _ =>
     bindM (add_exc_info md) (fun _ =>
     bindM (add_exc_text md) (fun _ =>
     bindM (add_stack_info md) (fun _ => k))))).
Proof.
  intros Hk. unfold written_attrs, enriched_keys in *.
  apply keeps_bind; [|intros _].
  { eapply keeps_weaken; [| |apply (keeps_format_asctime [] md)]; list_incl. }
  apply keeps_bind; [|intros _].
  { eapply keeps_weaken; [| |apply (keeps_add_exc_info [] md)]; list_incl. }
  apply keeps_bind; [|intros _].
  { eapply keeps_weaken; [| |apply (keeps_add_exc_text [] md)]; list_incl. }
  apply keeps_bind; [|intros _]; [|done].
  eapply keeps_weaken; [| |apply (keeps_add_stack_info [] md)]; list_incl.
Qed.

(** The message dictionary is the one logged as the message, or a new
    one. *)
Lemma message_fields_result `{Host} st :
  match (message_fields st).1 with
  | Ok md =>
      getattr (st_record st) "msg" = Ok (VDict md) \/ st_heap st !! md = None
  | Raise _ => True
  end.
Proof.
  unfold message_fields, bindM, new_dict, get_attr, liftM, set_attr, retM,
    alloc. simpl.
  destruct (getattr (st_record st) "msg") as [msg|]; [|done].
  destruct msg; simpl; try (by left);
    (destruct (getMessage _ _); simpl; [right; apply lookup_fresh|done]).
Qed.

Lemma frame_lookup attrs keys md st st' l :
  frame attrs keys md st st' ->
  is_Some (st_heap st !! l) ->
  is_Some (st_heap st' !! l) /\
  (l <> md -> st_heap st' !! l = st_heap st !! l) /\
  (forall k, k ∉ keys ->
     od_get k (deref (st_heap st') l) = od_get k (deref (st_heap st) l)) /\
  (forall k, od_mem k (deref (st_heap st) l) = true ->
     od_mem k (deref (st_heap st') l) = true).
Proof.
  intros (_ & _ & _ & Hd & Hh & Hk & Hm & _) Hl.
  split; [auto|]. split; [auto|].
  destruct (decide (l = md)) as [->|Hne]; [done|].
  unfold deref. rewrite Hh by done. done.
Qed.

Lemma format_state `{Host} st : (format st).2 = (format_log_record st).2.
Proof.
  unfold format, bindM, liftM.
  by destruct (format_log_record st) as [[lr|e] st'].
Qed.

(** The frame of a whole call, relative to the dictionary of message
    fields it worked on. *)
Lemma format_log_record_frame `{Host} st :
  exists md,
    frame written_attrs enriched_keys md st (format_log_record st).2 /\
    (getattr (st_record st) "msg" = Ok (VDict md) \/ st_heap st !! md = None).
Proof.
  pose proof (message_fields_result st) as Hmd.
  assert (Hk : forall md,
             frame written_attrs enriched_keys md st (message_fields st).2).
  { intros md. eapply frame_weaken;
      [| |apply (keeps_message_fields enriched_keys md st)];
      [list_incl|done]. }
  unfold format_log_record, bindM at 1.
  destruct (message_fields st) as [[md|e] st1]; simpl in Hmd, Hk.
  - exists md. split; [|done].
    eapply frame_trans; [apply Hk|].
    apply keeps_enrichment. keeps_steps.
  - exists (fresh (dom (st_heap st))). split; [|right; apply lookup_fresh].
    apply Hk.
Qed.

(** ** Running [format] on a ready store *)

Lemma deref_alloc (h : heap) l : deref (alloc [] h).2 l = deref h l.
Proof.
  unfold alloc. simpl. rewrite deref_insert.
  destruct (decide (fresh (dom h) = l)) as [<-|]; [|done].
  unfold deref. by rewrite lookup_fresh.
Qed.

Lemma truthy_alloc (h : heap) v : truthy (alloc [] h).2 v = truthy h v.
Proof.
  destruct v; try done. unfold alloc. simpl. rewrite lookup_insert.
  destruct (decide (fresh (dom h) = l)) as [<-|]; [|done].
  by rewrite lookup_fresh.
Qed.

Lemma message_fields_run `{Host} st md :
  message_dict_of st md ->
  exists m,
    message_fields st =
      (Ok md, {| st_self := st_self st;
                 st_record := od_set (KStr "message") m (st_record st);
                 st_heap := (alloc [] (st_heap st)).2 |}) /\
    (forall l, getattr (st_record st) "msg" = Ok (VDict l) -> m = VNone).
Proof.
  unfold message_dict_of, message_fields, bindM, new_dict, get_attr, liftM,
    set_attr, retM.
  destruct (alloc [] (st_heap st)) as [l0 h1] eqn:Halloc. simpl.
  destruct (getattr (st_record st) "msg") as [msg|]; [|done].
  destruct msg; simpl;
    try (intros [-> Hmsg]; destruct (getMessage _ _) as [text|]; [|done];
         exists (VStr text); split; [done|]; intros ? [=]).
  intros [-> _]. exists VNone. split; [done|]. done.
Qed.

Lemma format_asctime_run `{Host} st :
  exists record',
    format_asctime st =
      (Ok tt, {| st_self := st_self st;
                 st_record := record';
                 st_heap := st_heap st |}) /\
    (forall k, k <> KStr "asctime" ->
       od_get k record' = od_get k (st_record st)) /\
    (od_wf (st_record st) -> od_wf record').
Proof.
  unfold format_asctime, bindM, get_self, liftM, set_attr, retM. simpl.
  destruct st as [self record h]. simpl. case_bool_decide; simpl.
  - eexists. split; [done|]. split.
    + intros k Hk. by apply od_get_set_ne.
    + apply od_wf_set.
  - by exists record.
Qed.

Lemma add_exc_info_run `{Host} md st e :
  getattr (st_record st) "exc_info" = Ok e ->
  add_exc_info md st =
    (Ok tt,
     if truthy (st_heap st) e
        && negb (truthy (st_heap st)
                   (dict_get (deref (st_heap st) md) (KStr "exc_info")))
     then (dict_set_at md "exc_info" (VStr (formatException e)) st).2
     else st).
Proof.
  intros He.
  unfold add_exc_info, bindM, get_attr, truth, dict_get_at, liftM, retM.
  rewrite He. simpl. destruct (truthy (st_heap st) e); simpl; [|done].
  by destruct (truthy (st_heap st) _).
Qed.

Lemma add_exc_text_skip md st :
  truthy (st_heap st) (dict_get (deref (st_heap st) md) (KStr "exc_info"))
    = true ->
  add_exc_text md st = (Ok tt, st).
Proof.
  intros Hgiven.
  unfold add_exc_text, bindM, get_attr, truth, dict_get_at, liftM, retM.
  simpl. by rewrite Hgiven.
Qed.

Lemma add_exc_text_run md st t :
  truthy (st_heap st) (dict_get (deref (st_heap st) md) (KStr "exc_info"))
    = false ->
  getattr (st_record st) "exc_text" = Ok t ->
  add_exc_text md st =
    (Ok tt,
     if truthy (st_heap st) t then (dict_set_at md "exc_info" t st).2 else st).
Proof.
  intros Hgiven Ht.
  unfold add_exc_text, bindM, get_attr, truth, dict_get_at, liftM, retM.
  simpl. rewrite Hgiven, Ht. simpl. by destruct (truthy (st_heap st) t).
Qed.

Lemma dict_set_at_entry md k v st :
  dict_get (deref (st_heap (dict_set_at md k v st).2) md) (KStr k) = v.
Proof.
  unfold dict_set_at, dict_get. simpl. rewrite deref_insert.
  case_decide; [|done]. by rewrite od_get_set_eq.
Qed.

(** Lines 144 to 147 on a record with the attributes [exc_info] and
    [exc_text]: the entry [exc_info] of the message fields afterwards. *)
Lemma exc_steps_run `{Host} {A} md (k : M A) st e t :
  getattr (st_record st) "exc_info" = Ok e ->
  getattr (st_record st) "exc_text" = Ok t ->
  let h := st_heap st in
  let given := dict_get (deref h md) (KStr "exc_info") in
  exists st',
    bindM (add_exc_info md) (fun _ => bindM (add_exc_text md) (fun _ => k)) st
      = k st' /\
    st_record st' = st_record st /\
    frame [] [KStr "exc_info"] md st st' /\
    (truthy h given = true -> st' = st) /\
    (truthy h given = false -> truthy h e = true ->
     formatException e <> "" ->
       dict_get (deref (st_heap st') md) (KStr "exc_info")
         = VStr (formatException e)) /\
    (truthy h given = false -> truthy h e = false -> truthy h t = true ->
       dict_get (deref (st_heap st') md) (KStr "exc_info") = t).
Proof.
  intros He Ht h given.
  assert (Hset : forall v st0,
            frame [] [KStr "exc_info"] md st0
              (dict_set_at md "exc_info" v st0).2).
  { intros v st0. apply keeps_dict_set_at. repeat constructor. }
  unfold bindM at 1. rewrite (add_exc_info_run md st e He). fold h given.
  destruct (truthy h given) eqn:Hgiven.
  - (* an entry was supplied *)
    rewrite andb_false_r. exists st. unfold bindM.
    rewrite add_exc_text_skip by done.
    split; [done|]. split; [done|]. split; [apply frame_refl|]. done.
  - rewrite andb_true_r. destruct (truthy h e) eqn:Hexc.
    + (* the exception is formatted *)
      set (st1 := (dict_set_at md "exc_info" (VStr (formatException e)) st).2).
      assert (Hentry : dict_get (deref (st_heap st1) md) (KStr "exc_info")
                       = VStr (formatException e))
        by apply dict_set_at_entry.
      unfold bindM.
      destruct (String.eqb (formatException e) "") eqn:Htext.
      * rewrite (add_exc_text_run md st1 t);
          [|by rewrite Hentry; simpl; rewrite Htext|done].
        apply String.eqb_eq in Htext.
        destruct (truthy (st_heap st1) t).
        -- eexists. split; [done|]. split; [done|]. split.
           { eapply frame_trans; [apply Hset|apply Hset]. }
           done.
        -- exists st1. split; [done|]. split; [done|]. split; [apply Hset|].
           done.
      * rewrite add_exc_text_skip by (by rewrite Hentry; simpl; rewrite Htext).
        exists st1. split; [done|]. split; [done|]. split; [apply Hset|].
        done.
    + (* no exception: the pre-formatted text, if any *)
      unfold bindM. rewrite (add_exc_text_run md st t) by done. fold h.
      destruct (truthy h t) eqn:Htt.
      * eexists. split; [done|]. split; [done|]. split; [apply Hset|].
        split; [done|]. split; [done|]. intros _ _ _.
        apply dict_set_at_entry.
      * exists st. split; [done|]. split; [done|].
        split; [apply frame_refl|]. done.
Qed.

Lemma add_stack_info_run `{Host} md st :
  exists st',
    add_stack_info md st = (Ok tt, st') /\
    st_record st' = st_record st /\
    frame [] [KStr "stack_info"] md st st'.
Proof.
  pose proof (keeps_add_stack_info [] md st) as Hframe.
  unfold add_stack_info, except_AttributeError, bindM, get_attr, truth,
    dict_get_at, dict_set_at, liftM, retM, getattr in *.
  destruct (od_get (KStr "stack_info") (st_record st)) as [s|]; simpl in *.
  - destruct (truthy (st_heap st) s); simpl in *;
      [|exists st; split; [done|]; split; [done|]; apply frame_refl].
    destruct (truthy (st_heap st) _); simpl in *;
      [exists st; split; [done|]; split; [done|]; apply frame_refl|].
    eexists. split; [reflexivity|]. split; [done|]. exact Hframe.
  - exists st. split; [done|]. split; [done|]. apply frame_refl.
Qed.

Lemma truthy_no_dict h1 h2 v :
  (forall l, v <> VDict l) -> truthy h1 v = truthy h2 v.
Proof. intros Hv. destruct v; try done. by destruct (Hv l). Qed.

Lemma fields_storable_deref self h1 h2 :
  deref h1 (rename_fields self) = deref h2 (rename_fields self) ->
  fields_storable self h1 = fields_storable self h2.
Proof.
  intros Hrn. unfold fields_storable, field_key. by rewrite Hrn.
Qed.

Lemma deref_lookup h1 h2 l : h1 !! l = h2 !! l -> deref h1 l = deref h2 l.
Proof. intros Hl. unfold deref. by rewrite Hl. Qed.

Lemma is_Ok_inv {A} (r : result A) : is_Ok r = true -> exists a, r = Ok a.
Proof. destruct r; [eauto|done]. Qed.

(** A ready store is formatted without an error; the log record is the one
    [add_fields] makes of the final store, and the entry [exc_info] of the
    message fields is settled by lines 144 to 147. *)
Lemma format_log_record_run `{Host} st md injected :
  ready st md injected ->
  exists out st' e t,
    format_log_record st = (Ok out, st') /\
    getattr (st_record st) "exc_info" = Ok e /\
    getattr (st_record st) "exc_text" = Ok t /\
    frame written_attrs enriched_keys md st st' /\
    (forall l, getattr (st_record st) "msg" = Ok (VDict l) ->
       od_get (KStr "message") (st_record st') = Some VNone) /\
    (forall k,
       od_get k out =
         by_precedence (st_self st) (st_heap st') (st_record st') md
           injected k) /\
    let h := st_heap st in
    let given := dict_get (deref h md) (KStr "exc_info") in
    let entry := dict_get (deref (st_heap st') md) (KStr "exc_info") in
    (truthy h given = true -> entry = given) /\
    (truthy h given = false -> truthy h e = true ->
     formatException e <> "" -> entry = VStr (formatException e)) /\
    (truthy h given = false -> truthy h e = false -> truthy h t = true ->
     entry = t).
Proof.
  intros (Hmd & He & Ht & Hrn & Hrn_md & Hsf & Hsf_md & Hst & Hrec & Hsf_wf
          & Hmd_wf & Hts & Hinj).
  apply is_Ok_inv in He as [e He]. apply is_Ok_inv in Ht as [t Ht].
  (* lines 135 to 140 *)
  destruct (message_fields_run st md Hmd) as (m & Hrun1 & Hm).
  pose proof (keeps_message_fields [] md st) as Hf1.
  rewrite Hrun1 in Hf1. simpl in Hf1.
  set (st1 := Build_store _ _ _) in *.
  (* lines 141 and 142 *)
  destruct (format_asctime_run st1) as (record2 & Hrun2 & Hrec2 & Hwf2).
  pose proof (keeps_format_asctime [] md st1) as Hf2.
  rewrite Hrun2 in Hf2. simpl in Hf2.
  set (st2 := Build_store _ record2 _) in *.
  assert (Hattr : forall name, name <> "message" -> name <> "asctime" ->
            getattr (st_record st2) name = getattr (st_record st) name).
  { intros name Hn1 Hn2. unfold getattr. simpl.
    rewrite Hrec2 by congruence. unfold st1. simpl.
    by rewrite od_get_set_ne by congruence. }
  (* lines 144 to 147 *)
  destruct (exc_steps_run md
              (bindM (add_stack_info md) (fun _ =>
               bindM (liftM (fun st =>
                        add_fields (st_self st) (st_heap st) []
                          (st_record st) md))
                 (fun lr => retM (process_log_record lr))))
              st2 e t)
    as (st3 & Hrun3 & Hrec3 & Hf3 & Hcase1 & Hcase2 & Hcase3).
  { by rewrite Hattr. }
  { by rewrite Hattr. }
  (* lines 148 to 152 *)
  destruct (add_stack_info_run md st3) as (st4 & Hrun4 & Hrec4 & Hf4).
  (* the whole frame *)
  assert (Hframe : frame written_attrs enriched_keys md st st4).
  { unfold written_attrs, enriched_keys.
    eapply frame_trans;
      [eapply frame_weaken; [| |exact Hf1]; list_incl|].
    eapply frame_trans;
      [eapply frame_weaken; [| |exact Hf2]; list_incl|].
    eapply frame_trans;
      [eapply frame_weaken; [| |exact Hf3]; list_incl|].
    eapply frame_weaken; [| |exact Hf4]; list_incl. }
  destruct Hframe as (Hself & Hrecord & Hwf & Hdom & Hheap & Hkeys & Hmem
                      & Hmdwf).
  assert (Hframe : frame written_attrs enriched_keys md st st4)
    by by repeat split.
  (* line 156 *)
  destruct (add_fields_spec (st_self st) (st_heap st4) (st_record st4) md
              injected) as (out & Hadd & _ & Hout).
  { rewrite <- Hst. apply fields_storable_deref, deref_lookup.
    by apply Hheap. }
  { by apply Hwf. }
  { rewrite (deref_lookup _ (st_heap st)); [done|]. by apply Hheap. }
  { by apply Hmdwf. }
  { rewrite <- Hinj. unfold injected_timestamp, timestamp_key.
    rewrite (truthy_no_dict _ (st_heap st)) by done.
    unfold getattr. rewrite Hrecord; [done|].
    intros Hin. apply elem_of_cons in Hin as [? | Hin]; [done|].
    apply elem_of_cons in Hin as [? | Hin]; [done|]. by apply elem_of_nil in Hin. }
  exists out, st4, e, t.
  split.
  { unfold format_log_record, bindM at 1. rewrite Hrun1.
    unfold bindM at 1. rewrite Hrun2. rewrite Hrun3.
    unfold bindM at 1. rewrite Hrun4.
    unfold bindM, liftM, retM, process_log_record.
    by rewrite Hself, Hadd. }
  split; [done|]. split; [done|]. split; [done|]. split.
  { intros l Hl. rewrite Hrec4, Hrec3. simpl.
    rewrite Hrec2 by done. unfold st1. simpl.
    rewrite od_get_set_eq. f_equal. by eapply Hm. }
  split; [done|].
  assert (Hentry : dict_get (deref (st_heap st4) md) (KStr "exc_info")
                   = dict_get (deref (st_heap st3) md) (KStr "exc_info")).
  { destruct Hf4 as (_ & _ & _ & _ & _ & Hk4 & _). unfold dict_get.
    rewrite Hk4; [done|].
    intros Hin. apply elem_of_cons in Hin as [? | Hin]; [done|].
    by apply elem_of_nil in Hin. }
  cbv zeta. rewrite Hentry. subst st2 st1.
  cbn [st_heap] in Hcase1, Hcase2, Hcase3.
  repeat rewrite truthy_alloc in Hcase1.
  repeat rewrite truthy_alloc in Hcase2.
  repeat rewrite truthy_alloc in Hcase3.
  rewrite deref_alloc in Hcase1, Hcase2, Hcase3.
  split; [|split].
  - intros Hg. rewrite (Hcase1 Hg). cbn [st_heap]. by rewrite deref_alloc.
  - done.
  - done.
Qed.

(** ** Properties of [format] *)



Lemma by_precedence_message_field self h record md injected k v :
  od_get k (deref h md) = Some v ->
  is_Some (by_precedence self h record md injected k) /\
  (extra_binding self record k = None ->
   (forall tv, injected <> Some (k, tv)) ->
   by_precedence self h record md injected k = Some v).
Proof.
  intros Hk. unfold by_precedence. rewrite Hk.
  destruct injected as [[tk tv]|]; simpl.
  - case_decide; simplify_eq.
    + split; [done|]. intros _ Hts. by destruct (Hts tv).
    + destruct (extra_binding self record k); [|done].
      split; [done|]. done.
  - destruct (extra_binding self record k); [|done].
    split; [done|]. done.
Qed.

(** C4.  When the record's raw message is a dictionary, [format] clears the
    formatted-message attribute instead of computing it (the host's
    [getMessage] plays no part: nothing is assumed about it), and every key
    of the dictionary is a key of the output object; a key other than
    [exc_info] and [stack_info] that no extra attribute and no timestamp
    overwrites has the dictionary's value. *)
Theorem dict_message_handling `{Host} st l injected :
  getattr (st_record st) "msg" = Ok (VDict l) ->
  ready st l injected ->
  exists out st',
    format_log_record st = (Ok out, st') /\
    od_get (KStr "message") (st_record st') = Some VNone /\
    (forall k, od_mem k (deref (st_heap st) l) = true ->
       od_mem k out = true) /\
    (forall k v,
       od_get k (deref (st_heap st) l) = Some v ->
       k ∉ enriched_keys ->
       extra_binding (st_self st) (st_record st') k = None ->
       (forall tv, injected <> Some (k, tv)) ->
       od_get k out = Some v).
Proof.
  intros Hmsg Hready.
  destruct (format_log_record_run st l injected Hready)
    as (out & st' & e & t & Hrun & _ & _ & Hframe & Hmessage & Hout & _).
  destruct Hframe as (_ & _ & _ & _ & _ & Hkeys & Hmem & _).
  exists out, st'. split; [done|]. split; [by eapply Hmessage|]. split.
  - intros k Hk. apply Hmem in Hk. unfold od_mem in *. rewrite Hout.
    destruct (od_get k (deref (st_heap st') l)) as [v|] eqn:Hv; [|done].
    destruct (by_precedence_message_field (st_self st) (st_heap st')
                (st_record st') l injected k v Hv) as [[v' ->] _]. done.
  - intros k v Hk Hnot Hextra Hts. rewrite Hout.
    apply by_precedence_message_field; try done. by rewrite Hkeys.
Qed.

(** Proves [ready] for a concrete store. *)
Ltac prove_ready :=
  unfold ready; cbn [st_self st_record st_heap];
  split;
  [vm_compute; split; [reflexivity|first [reflexivity | eauto]]|];
  repeat match goal with
         | |- _ /\ _ => split
         | |- is_Some _ => vm_compute; eauto
         | |- forall l, _ <> VDict l => intros ?; discriminate
         | |- _ <> _ => discriminate
         | |- _ => vm_compute; reflexivity
         end.

(** The dictionary [{"event": "login"}] logged as the message: the output
    has [event = login], and [message] is cleared. *)
Lemma dict_message_handling_witness :
  exists self h out st',
    __init__ (H := Example.host) Example.plain_kwargs
      (Example.payload_heap Example.login_event) = (Ok self, h) /\
    format_log_record (H := Example.host)
      {| st_self := self; st_record := Example.payload_record; st_heap := h |}
      = (Ok out, st') /\
    od_get (KStr "message") (st_record st') = Some VNone /\
    od_get (KStr "event") out = Some (VStr "login").
Proof.
  run_init Example.host Example.plain_kwargs
    (Example.payload_heap Example.login_event).
  match type of Hinit with
  | _ = (Ok ?self, ?h) =>
      exists self, h;
      destruct (dict_message_handling (H := Example.host)
                  {| st_self := self; st_record := Example.payload_record;
                     st_heap := h |} 1%positive None)
        as (out & st' & Hrun & Hmessage & _ & Hvalue);
      [vm_compute; reflexivity|prove_ready|]
  end.
  pose proof Hrun as Hrun'. vm_compute in Hrun'. injection Hrun' as <- <-.
  eexists _, _. split; [exact Hinit|]. split; [exact Hrun|].
  split; [exact Hmessage|].
  apply Hvalue.
  - vm_compute; reflexivity.
  - intros Hin. apply list_elem_of_In in Hin. simpl in Hin.
    destruct Hin as [Hin | [Hin | []]]; discriminate Hin.
  - vm_compute; reflexivity.
  - intros tv. discriminate.
Defined.

(** C8 (amended).  The [exc_info] entry of the message fields after
    [format]: an entry the payload supplied is kept as it is when it is true
    (non-empty); when the entry is absent or false, and the record carries
    exception info, the exception is formatted into text and that text is
    the entry; when the entry is absent or false and the record carries no
    exception info, the record's pre-formatted exception text, if true, is
    the entry.  The output object has the entry under [exc_info] whenever
    [exc_info] is in the skip-set and is not the timestamp key. *)
Theorem exception_enrichment `{Host} st md injected e t :
  ready st md injected ->
  getattr (st_record st) "exc_info" = Ok e ->
  getattr (st_record st) "exc_text" = Ok t ->
  exists out st',
    format_log_record st = (Ok out, st') /\
    let h := st_heap st in
    let given := dict_get (deref h md) (KStr "exc_info") in
    let entry := dict_get (deref (st_heap st') md) (KStr "exc_info") in
    (truthy h given = true -> entry = given) /\
    (truthy h given = false -> truthy h e = true ->
     formatException e <> "" -> entry = VStr (formatException e)) /\
    (truthy h given = false -> truthy h e = false -> truthy h t = true ->
     entry = t) /\
    (od_mem (KStr "exc_info") (deref (st_heap st') md) = true ->
     skipped (_skip_fields (st_self st)) (KStr "exc_info") = true ->
     (forall tv, injected <> Some (KStr "exc_info", tv)) ->
     od_get (KStr "exc_info") out = Some entry).
Proof.
  intros Hready He Ht.
  destruct (format_log_record_run st md injected Hready)
    as (out & st' & e' & t' & Hrun & He' & Ht' & _ & _ & Hout & Hcases).
  rewrite He in He'. rewrite Ht in Ht'. simplify_eq.
  destruct Hcases as (Hc1 & Hc2 & Hc3).
  exists out, st'. split; [done|]. cbv zeta.
  split; [done|]. split; [done|]. split; [done|].
  intros Hmem Hskip Hts. rewrite Hout. unfold dict_get.
  unfold od_mem in Hmem.
  destruct (od_get (KStr "exc_info") (deref (st_heap st') md)) as [v|] eqn:Hv;
    [|done].
  simpl. apply by_precedence_message_field; try done.
  unfold extra_binding. by rewrite Hskip.
Qed.

(** The payload [{"event": "login", "exc_info": "given"}] logged with
    exception info: the output keeps [exc_info = given]. *)
Lemma exception_enrichment_witness :
  exists self h out st',
    __init__ (H := Example.host) Example.plain_kwargs
      (Example.payload_heap (Example.login_event_with (VStr "given")))
      = (Ok self, h) /\
    format_log_record (H := Example.host)
      {| st_self := self; st_record := Example.payload_record; st_heap := h |}
      = (Ok out, st') /\
    dict_get (deref (st_heap st') 1%positive) (KStr "exc_info")
      = VStr "given" /\
    od_get (KStr "exc_info") out = Some (VStr "given").
Proof.
  run_init Example.host Example.plain_kwargs
    (Example.payload_heap (Example.login_event_with (VStr "given"))).
  match type of Hinit with
  | _ = (Ok ?self, ?h) =>
      exists self, h;
      destruct (exception_enrichment (H := Example.host)
                  {| st_self := self; st_record := Example.payload_record;
                     st_heap := h |} 1%positive None
                  Example.some_exc_info VNone)
        as (out & st' & Hrun & Hkept & _ & _ & Hout);
      [prove_ready|vm_compute; reflexivity|vm_compute; reflexivity|]
  end.
  cbv zeta in Hkept, Hout.
  exists out, st'. split; [exact Hinit|]. split; [exact Hrun|].
  assert (Hentry : dict_get (deref (st_heap st') 1%positive) (KStr "exc_info")
                   = VStr "given").
  { rewrite Hkept; vm_compute; reflexivity. }
  split; [exact Hentry|]. rewrite <- Hentry. apply Hout.
  - unfold dict_get in Hentry. unfold od_mem.
    destruct (od_get (KStr "exc_info") (deref (st_heap st') 1%positive));
      [reflexivity|discriminate Hentry].
  - vm_compute; reflexivity.
  - intros tv. discriminate.
Defined.

(** C8, as stated, fails: the payload supplies [exc_info = False], the
    record carries exception info, and the output has the formatted
    traceback in place of the supplied entry. *)
Lemma false_exc_info_entry_replaced :
  exists self h out st',
    __init__ (H := Example.host) Example.plain_kwargs
      (Example.payload_heap (Example.login_event_with (VBool false)))
      = (Ok self, h) /\
    od_get (KStr "exc_info") (deref h 1%positive) = Some (VBool false) /\
    truthy h Example.some_exc_info = true /\
    format_log_record (H := Example.host)
      {| st_self := self; st_record := Example.payload_record; st_heap := h |}
      = (Ok out, st') /\
    od_get (KStr "exc_info") out
      = Some (VStr "Traceback (most recent call last): boom") /\
    od_get (KStr "exc_info") out <> Some (VBool false).
Proof.
  eexists _, _, _, _. split; [vm_compute; reflexivity|].
  split; [vm_compute; reflexivity|]. split; [vm_compute; reflexivity|].
  split; [vm_compute; reflexivity|]. split; [vm_compute; reflexivity|].
  vm_compute. discriminate.
Qed.

(** * Further properties *)

(** ** Resolving a dotted name *)

Lemma list_ascii_of_string_app s1 s2 :
  list_ascii_of_string (s1 ++ s2)%string
    = list_ascii_of_string s1 ++ list_ascii_of_string s2.
Proof. induction s1 as [|c s1 IH]; simpl; [done|]. by rewrite IH. Qed.

Lemma split_at_dot_first a b :
  forallb (fun c => negb (Ascii.eqb c "."%char)) a = true ->
  split_at_dot (a ++ "."%char :: b) = Some (a, b).
Proof.
  induction a as [|c a IH]; simpl; [done|]. intros Hok.
  apply andb_true_iff in Hok as [Hc Hok]. apply negb_true_iff in Hc.
  by rewrite Hc, IH.
Qed.

Lemma split_at_dot_none a :
  forallb (fun c => negb (Ascii.eqb c "."%char)) a = true ->
  split_at_dot a = None.
Proof.
  induction a as [|c a IH]; simpl; [done|]. intros Hok.
  apply andb_true_iff in Hok as [Hc Hok]. apply negb_true_iff in Hc.
  by rewrite Hc, IH.
Qed.

Lemma forallb_rev {A} (p : A -> bool) l : forallb p (rev l) = forallb p l.
Proof.
  induction l as [|x l IH]; simpl; [done|].
  rewrite forallb_app, IH. simpl. by rewrite andb_true_r, andb_comm.
Qed.

Lemma rpartition_dot_last path function :
  forallb (fun c => negb (Ascii.eqb c "."%char))
    (list_ascii_of_string function) = true ->
  rpartition_dot (path ++ String "."%char function) = (path, function).
Proof.
  intros Hok. unfold rpartition_dot.
  rewrite list_ascii_of_string_app. simpl.
  rewrite rev_app_distr. simpl. rewrite <- app_assoc. simpl.
  rewrite split_at_dot_first by (by rewrite forallb_rev).
  by rewrite !rev_involutive, !string_of_list_ascii_of_string.
Qed.

Lemma rpartition_dot_none name :
  forallb (fun c => negb (Ascii.eqb c "."%char))
    (list_ascii_of_string name) = true ->
  rpartition_dot name = ("", name).
Proof.
  intros Hok. unfold rpartition_dot.
  by rewrite split_at_dot_none by (by rewrite forallb_rev).
Qed.

(** X1.  [_str_to_fn] splits a dotted name at its last dot: for a function
    name without a dot, [path.function] is looked up as attribute
    [function] of module [path], and a name with no dot at all as an
    attribute of the module with the empty name; the outcome of the lookup,
    value or exception, is the outcome of [_str_to_fn]. *)
Theorem str_to_fn_dotted {A} (import : string -> string -> result A)
    path function :
  forallb (fun c => negb (Ascii.eqb c "."%char))
    (list_ascii_of_string function) = true ->
  _str_to_fn import (Some (Named (path ++ String "."%char function)))
    = match import path function with
      | Ok f => Ok (Some f)
      | Raise e => Raise e
      end /\
  _str_to_fn import (Some (Named function))
    = match import "" function with
      | Ok f => Ok (Some f)
      | Raise e => Raise e
      end.
Proof.
  intros Hok. unfold _str_to_fn.
  by rewrite rpartition_dot_last, rpartition_dot_none.
Qed.

Lemma str_to_fn_dotted_witness :
  _str_to_fn (fun path function => Ok (path, function))
    (Some (Named "json.encoder.JSONEncoder"))
    = Ok (Some ("json.encoder", "JSONEncoder")).
Proof.
  exact (proj1 (str_to_fn_dotted (fun path function => Ok (path, function))
                  "json.encoder" "JSONEncoder" eq_refl)).
Defined.

(** ** The constructor *)

Lemma Formatter_init_Ok `{Host} fmt c validate st f :
  Formatter_init fmt c validate = Ok (st, f) ->
  st <> OtherStyle /\ f <> "" /\
  (f = default_format st \/ fmt = Some f).
Proof.
  unfold Formatter_init. destruct (STYLES c) as [st'|] eqn:Hst; [|done].
  apply STYLES_supported in Hst.
  destruct (_ && _); [done|]. intros [= <- <-]. split; [done|].
  destruct fmt as [s|].
  - destruct (String.eqb s "") eqn:Hs.
    + split; [by destruct st'|by left].
    + apply String.eqb_neq in Hs. split; [done|by right].
  - split; [by destruct st'|by left].
Qed.

Lemma parse_supported self :
  _style self <> OtherStyle -> is_Ok (parse self) = true.
Proof.
  unfold parse. destruct (_style self); try done;
    intros _; destruct (_fmt self) as [f|]; try done;
    by destruct (String.eqb f "").
Qed.

(** X2.  The constructor raises exactly when one of the three function
    options names something that cannot be resolved, or the constructor of
    the base class raises: parsing the stored template adds no failure. *)
Theorem init_succeeds_iff `{Host} kw h :
  is_Ok (__init__ kw h).1 =
    is_Ok (_str_to_fn import_hook (kw_json_default kw))
    && is_Ok (_str_to_fn import_encoder (kw_json_encoder kw))
    && is_Ok (_str_to_fn import_serializer
                (Some (default (Given json_dumps) (kw_json_serializer kw))))
    && is_Ok (Formatter_init (kw_fmt kw) (default "%" (kw_style kw))
                (default true (kw_validate kw))).
Proof.
  unfold __init__.
  destruct (_str_to_fn import_hook _) as [jd|]; [|done].
  destruct (_str_to_fn import_encoder _) as [je|]; [|done].
  destruct (_str_to_fn import_serializer _) as [js|]; [|done].
  destruct (match kw_rename_fields kw with Some _ => _ | None => _ end)
    as [rn h1].
  destruct (match kw_static_fields kw with Some _ => _ | None => _ end)
    as [sf h2].
  destruct (Formatter_init _ _ _) as [[st f]|] eqn:Hbase; [|done].
  apply Formatter_init_Ok in Hbase as (Hst & _ & _).
  match goal with
  | |- context [parse ?s] =>
      pose proof (parse_supported s Hst) as Hparse;
      destruct (parse s); [done|discriminate Hparse]
  end.
Qed.

Lemma od_wf_od_of_names names : od_wf (od_of_names names).
Proof. unfold od_of_names. by apply od_wf_update. Qed.

(** X3.  A formatter that the constructor returns stores a non-empty
    template and one of the three supported styles; its parsed field list
    is what [parse] returns for that template; and its skip-set consists of
    exactly the parsed fields and the reserved attributes, each once. *)
Theorem init_invariants `{Host} kw h self h' :
  __init__ kw h = (Ok self, h') ->
  (exists f, _fmt self = Some f /\ f <> "") /\
  _style self <> OtherStyle /\
  parse self = Ok (_required_fields self) /\
  od_wf (_skip_fields self) /\
  forall k,
    od_mem k (_skip_fields self) = true <->
    od_mem k (reserved_attrs self) = true \/
    exists f, k = KStr f /\ f ∈ _required_fields self.
Proof.
  intros Hinit.
  destruct (init_fields _ _ _ _ Hinit)
    as (Hparse & Hskip & Hres & st & f & Hbase & Hst & Hf).
  apply Formatter_init_Ok in Hbase as (Hsup & Hne & _).
  split; [by exists f|]. split; [by rewrite Hst|]. split; [done|]. split.
  - rewrite Hskip. apply od_wf_update, od_wf_od_of_names.
  - intros k. rewrite (init_skip_fields _ _ _ _ _ Hinit), orb_true_iff.
    rewrite bool_decide_eq_true, list_elem_of_fmap. split.
    + intros [Hk | (f' & -> & Hin)]; [by left|right; eauto].
    + intros [Hk | (f' & -> & Hin)]; [by left|right; eauto].
Qed.

Lemma init_invariants_witness :
  exists self h,
    __init__ (H := Example.host) Example.plain_kwargs ∅ = (Ok self, h) /\
    _fmt self = Some "%(levelname)s %(message)s" /\
    od_mem (KStr "levelname") (_skip_fields self) = true /\
    od_mem (KStr "user") (_skip_fields self) = false.
Proof.
  run_init Example.host Example.plain_kwargs (∅ : heap).
  match type of Hinit with
  | _ = (Ok ?self, ?h) =>
      exists self, h;
      destruct (init_invariants (H := Example.host) _ _ self h Hinit)
        as (_ & _ & _ & _ & Hskip)
  end.
  split; [exact Hinit|]. split; [reflexivity|]. split.
  - apply Hskip. left. reflexivity.
  - reflexivity.
Defined.

(** X4.  The module's encoder is installed only when the caller supplies
    neither a [json_default] function nor a [json_encoder] class; a supplied
    [json_default] is the hook in force whatever the encoder class, and a
    supplied encoder class alone is used with its own [default]. *)
Theorem init_encoder_choice `{Host} kw h self h' :
  __init__ kw h = (Ok self, h') ->
  (kw_json_default kw = None -> kw_json_encoder kw = None ->
     json_default self = None /\
     json_encoder self = Some JsonEncoder_cls /\
     effective_default (json_default self) (json_encoder self)
       = JsonEncoder.default) /\
  (forall f, kw_json_default kw = Some (Given f) ->
     json_default self = Some f /\
     effective_default (json_default self) (json_encoder self) = f /\
     (kw_json_encoder kw = None -> json_encoder self = None)) /\
  (forall d, kw_json_default kw = None ->
     kw_json_encoder kw = Some (Given (OtherEncoder d)) ->
     json_encoder self = Some (OtherEncoder d) /\
     effective_default (json_default self) (json_encoder self) = d).
Proof.
  unfold __init__. intros Hinit.
  destruct (_str_to_fn import_hook _) as [jd|] eqn:Hjd; [|done].
  destruct (_str_to_fn import_encoder _) as [je|] eqn:Hje; [|done].
  destruct (_str_to_fn import_serializer _) as [js|]; [|done].
  destruct (match kw_rename_fields kw with Some _ => _ | None => _ end)
    as [rn h1].
  destruct (match kw_static_fields kw with Some _ => _ | None => _ end)
    as [sf h2].
  destruct (Formatter_init _ _ _) as [[st f]|]; [|done].
  destruct (parse _) as [required|]; [|done].
  injection Hinit as <- <-. simpl.
  split; [|split].
  - intros Hd He. rewrite Hd in Hjd. rewrite He in Hje. simpl in *.
    by simplify_eq.
  - intros f0 Hd. rewrite Hd in Hjd. simpl in Hjd. simplify_eq.
    split; [done|]. split; [done|]. intros He. rewrite He in Hje.
    simpl in Hje. by simplify_eq.
  - intros d Hd He. rewrite Hd in Hjd. rewrite He in Hje. simpl in *.
    by simplify_eq.
Qed.

Lemma init_encoder_choice_witness :
  exists self h,
    __init__ (H := Example.host) Example.plain_kwargs ∅ = (Ok self, h) /\
    json_encoder self = Some JsonEncoder_cls.
Proof.
  run_init Example.host Example.plain_kwargs (∅ : heap).
  match type of Hinit with
  | _ = (Ok ?self, ?h) =>
      exists self, h;
      destruct (init_encoder_choice (H := Example.host) _ _ self h Hinit)
        as (Hdefault & _)
  end.
  split; [exact Hinit|]. by destruct Hdefault as (_ & He & _).
Defined.

Lemma alloc_spec (h : heap) :
  h !! (alloc [] h).1 = None /\
  (alloc [] h).2 !! (alloc [] h).1 = Some [] /\
  forall l, is_Some (h !! l) -> (alloc [] h).2 !! l = h !! l.
Proof.
  unfold alloc. cbn [fst snd]. split; [apply lookup_fresh|].
  split; [apply lookup_insert_eq|].
  intros l [d Hl]. rewrite lookup_insert_ne; [done|].
  intros <-. by rewrite lookup_fresh in Hl.
Qed.

(** Reads a lookup in a heap grown by allocations back to the heap it
    grew from. *)
Ltac heap_same :=
  first
    [ done
    | match goal with
      | Hc : forall l, is_Some (?h0 !! l) -> ?h1 !! l = ?h0 !! l
        |- context [?h1 !! ?l] =>
          rewrite (Hc l) by heap_same; heap_same
      end ].

Lemma init_allocates `{Host} kw h :
  (forall l, is_Some (h !! l) -> (__init__ kw h).2 !! l = h !! l) /\
  forall self,
    (__init__ kw h).1 = Ok self ->
    let h' := (__init__ kw h).2 in
    (forall l, kw_rename_fields kw = Some l -> rename_fields self = l) /\
    (forall l, kw_static_fields kw = Some l -> static_fields self = l) /\
    (kw_rename_fields kw = None ->
       h !! rename_fields self = None /\ h' !! rename_fields self = Some []) /\
    (kw_static_fields kw = None ->
       h !! static_fields self = None /\ h' !! static_fields self = Some []) /\
    (kw_rename_fields kw = None -> kw_static_fields kw = None ->
       rename_fields self <> static_fields self).
Proof.
  unfold __init__.
  destruct (_str_to_fn import_hook _) as [jd|];
    [|split; [done|intros ? [=]]].
  destruct (_str_to_fn import_encoder _) as [je|];
    [|split; [done|intros ? [=]]].
  destruct (_str_to_fn import_serializer _) as [js|];
    [|split; [done|intros ? [=]]].
  destruct (kw_rename_fields kw) as [rn|], (kw_static_fields kw) as [sf|];
    cbn zeta.
  all: repeat match goal with
       | |- context [alloc [] ?h0] =>
           let Hn := fresh "Hnew" in
           let Hn' := fresh "Hnew'" in
           let Hold := fresh "Hold" in
           destruct (alloc_spec h0) as (Hn & Hn' & Hold);
           destruct (alloc [] h0) as [? ?]; cbn [fst snd] in *
       end.
  all: destruct (Formatter_init _ _ _) as [[st f]|];
         [destruct (parse _) as [required|]|]; cbn [fst snd].
  all: split;
         [intros ? ?; heap_same
         |intros self Hself;
          first [discriminate Hself
                |injection Hself as <-; cbn;
                 repeat split; try done; try (intros ? [= <-]; done)]].
  - rewrite Hold0; [done|by eexists].
  - destruct (h !! l0) as [d|] eqn:Hl0; [|done].
    pose proof (Hold l0 (ltac:(by eexists))) as Hsame.
    rewrite Hnew0, Hl0 in Hsame. done.
  - intros _ _ Heq. rewrite Heq in Hnew'.
    discriminate (eq_trans (eq_sym Hnew') Hnew0).
Qed.

(** X5.  The constructor changes no dictionary that exists.  For an omitted
    [rename_fields] or [static_fields] option it makes a new, empty
    dictionary, so two omitted options never share one; a supplied
    dictionary is held as it is, not copied. *)
Theorem init_heap_frame `{Host} kw h self h' :
  __init__ kw h = (Ok self, h') ->
  (forall l, is_Some (h !! l) -> h' !! l = h !! l) /\
  (forall l, kw_rename_fields kw = Some l -> rename_fields self = l) /\
  (forall l, kw_static_fields kw = Some l -> static_fields self = l) /\
  (kw_rename_fields kw = None ->
     h !! rename_fields self = None /\ h' !! rename_fields self = Some []) /\
  (kw_static_fields kw = None ->
     h !! static_fields self = None /\ h' !! static_fields self = Some []) /\
  (kw_rename_fields kw = None -> kw_static_fields kw = None ->
     rename_fields self <> static_fields self).
Proof.
  intros Hinit. destruct (init_allocates kw h) as [Hold Hnew].
  rewrite Hinit in Hold, Hnew. split; [exact Hold|]. by apply Hnew.
Qed.

(** With both options omitted and a static-fields dictionary of another
    formatter in the heap, the two new dictionaries are distinct and the
    existing one is as it was. *)
Lemma init_heap_frame_witness :
  exists self h',
    __init__ (H := Example.host) Example.plain_kwargs Example.service_heap
      = (Ok self, h') /\
    rename_fields self <> static_fields self /\
    h' !! 2%positive = Some [(KStr "service", VStr "x")].
Proof.
  run_init Example.host Example.plain_kwargs Example.service_heap.
  match type of Hinit with
  | _ = (Ok ?self, ?h) =>
      exists self, h;
      destruct (init_heap_frame (H := Example.host) _ _ self h Hinit)
        as (Hold & _ & _ & _ & _ & Hne)
  end.
  split; [exact Hinit|]. split; [by apply Hne|].
  rewrite Hold; [reflexivity|]. by eexists.
Defined.

(** ** Key order *)

Section keys.
Context {A : Type}.
Implicit Types (d src : odict A) (k : key) (v : A).

Lemma od_mem_keys k d : od_mem k d = true <-> In k (map fst d).
Proof.
  unfold od_mem. induction d as [|[k0 v0] d IH]; simpl; [done|].
  case_decide; [tauto|]. rewrite IH. intuition congruence.
Qed.

(** An assignment keeps the keys in place and appends a new one. *)
Lemma od_keys_set k v d :
  map fst (od_set k v d) = map fst d ++ (if od_mem k d then [] else [k]).
Proof.
  unfold od_mem. induction d as [|[k0 v0] d IH]; simpl; [done|].
  case_decide; simpl.
  - by rewrite app_nil_r.
  - by rewrite IH.
Qed.

Lemma od_keys_update d src :
  exists rest, map fst (od_update d src) = map fst d ++ rest.
Proof.
  unfold od_update. revert d.
  induction src as [|[k v] src IH]; simpl; intros d.
  - exists []. by rewrite app_nil_r.
  - destruct (IH (od_set k v d)) as [rest ->]. rewrite od_keys_set.
    eexists. by rewrite <- app_assoc.
Qed.
End keys.

(** ** More on the extras merge *)

(** X6.  The extras merge removes and reorders nothing: the keys of the
    target stay where they are, and behind them come, in the order of the
    record's attributes, the names that are neither skipped nor already a
    key of the target. *)
Theorem merge_appends_in_record_order record target reserved :
  od_wf record ->
  map fst (merge_record_extra record target reserved) =
    map fst target ++
    List.filter (fun k => negb (skipped reserved k) && negb (od_mem k target))
      (map fst record).
Proof.
  revert target.
  induction record as [|[k v] record IH]; intros target Hwf.
  { simpl. by rewrite app_nil_r. }
  apply od_wf_cons in Hwf as [Hk Hwf].
  rewrite merge_record_extra_cons, IH by done. simpl.
  destruct (skipped reserved k) eqn:Hskip; simpl; [done|].
  rewrite od_keys_set, <- app_assoc. f_equal.
  assert (List.filter
            (fun k' => negb (skipped reserved k')
                       && negb (od_mem k' (od_set k v target)))
            (map fst record) =
          List.filter
            (fun k' => negb (skipped reserved k') && negb (od_mem k' target))
            (map fst record)) as ->.
  { apply List.filter_ext_in. intros k' Hin. rewrite od_mem_set.
    rewrite bool_decide_eq_false_2; [done|]. intros ->.
    apply od_mem_keys in Hin. unfold od_mem in Hin. by rewrite Hk in Hin. }
  by destruct (od_mem k target).
Qed.

Lemma merge_appends_in_record_order_witness :
  map fst (merge_record_extra
             [(KStr "user", VInt 7); (KStr "_private", VInt 0);
              (KStr "levelname", VStr "INFO"); (KStr "request", VInt 3);
              (KStr "message", VStr "hidden")]
             [(KStr "message", VStr "started"); (KStr "request", VNone)]
             (od_of_names RESERVED_ATTRS))
    = [KStr "message"; KStr "request"; KStr "user"].
Proof.
  rewrite merge_appends_in_record_order; reflexivity.
Defined.

(** X7.  An attribute of the record whose name is not skipped is copied to
    the target with the record's value, whatever the target held under that
    name. *)
Theorem merge_copies_extra record target reserved k v :
  od_wf record ->
  skipped reserved k = false ->
  od_get k record = Some v ->
  od_get k (merge_record_extra record target reserved) = Some v.
Proof. intros Hwf Hk Hv. by rewrite merge_get, Hk, Hv. Qed.

Lemma merge_copies_extra_witness :
  od_get (KStr "user")
    (merge_record_extra (Example.record_with_extra "user" (VInt 7))
       [(KStr "user", VStr "static")] (od_of_names RESERVED_ATTRS))
    = Some (VInt 7).
Proof.
  apply merge_copies_extra; reflexivity.
Defined.

(** ** More on the assembly of the output object *)

Lemma add_required_Ok self h record fields lr :
  is_Ok (add_required self h record lr fields) =
    forallb (fun f => is_Ok (field_key self h f)) fields.
Proof.
  revert lr. induction fields as [|f fields IH]; simpl; intros lr; [done|].
  rewrite add_field_field_key. destruct (field_key self h f); simpl; [|done].
  apply IH.
Qed.

Lemma add_fields_Ok `{Host} self h lr record md :
  is_Ok (add_fields self h lr record md) =
    fields_storable self h && is_Ok (injected_timestamp self h record).
Proof.
  unfold add_fields, fields_storable, injected_timestamp, timestamp_key.
  rewrite <- (add_required_Ok self h record _ lr).
  destruct (add_required _ _ _ _ _); simpl; [|done].
  destruct (truthy h (timestamp self)); [|done].
  destruct (getattr record "created") as [created|]; [|done].
  by destruct (fromtimestamp_utc created).
Qed.



Lemma add_required_raises self h record fields lr e :
  add_required self h record lr fields = Raise e -> e = TypeError.
Proof.
  revert lr. induction fields as [|f fields IH]; simpl; intros lr; [done|].
  rewrite add_field_field_key.
  destruct (field_key self h f) as [k|e'] eqn:Hk; [apply IH|].
  intros [= <-]. unfold field_key in Hk.
  destruct (od_get (KStr f) (deref h (rename_fields self))) as [renamed|];
    [|done].
  destruct renamed; simpl in Hk; congruence.
Qed.

(** X22.  A parsed field whose rename-map entry is a dictionary makes
    [add_fields] raise [TypeError]: a dictionary cannot be a key. *)
Theorem add_fields_unhashable_rename `{Host} self h lr record md f l :
  f ∈ _required_fields self ->
  od_get (KStr f) (deref h (rename_fields self)) = Some (VDict l) ->
  add_fields self h lr record md = Raise TypeError.
Proof.
  intros Hf Hrn. unfold add_fields.
  pose proof (add_required_Ok self h record (_required_fields self) lr) as Hok.
  destruct (add_required _ _ _ _ _) as [lr1|e] eqn:Hrun.
  - symmetry in Hok. simpl in Hok. rewrite forallb_forall in Hok.
    apply list_elem_of_In in Hf. specialize (Hok f Hf).
    unfold field_key in Hok. by rewrite Hrn in Hok.
  - by rewrite (add_required_raises _ _ _ _ _ _ Hrun).
Qed.

Lemma add_fields_unhashable_rename_witness :
  exists self h,
    __init__ (H := Example.host) Example.rename_kwargs
      {[ 3%positive := [(KStr "levelname", VDict 4%positive)];
         4%positive := [] ]} = (Ok self, h) /\
    add_fields (H := Example.host) self h []
      (Example.record_with_extra "user" (VInt 7)) 4%positive
      = Raise TypeError.
Proof.
  run_init Example.host Example.rename_kwargs
    ({[ 3%positive := [(KStr "levelname", VDict 4%positive)];
        4%positive := [] ]} : heap).
  match type of Hinit with
  | _ = (Ok ?self, ?h) =>
      exists self, h; split; [exact Hinit|];
      apply (add_fields_unhashable_rename (H := Example.host) self h []
               _ _ "levelname" 4%positive)
  end.
  - apply elem_of_cons. by left.
  - reflexivity.
Defined.

Lemma add_required_keys self h record fields ks lr lr' :
  Forall2 (fun f k => field_key self h f = Ok k) fields ks ->
  NoDup ks ->
  (forall k, k ∈ ks -> od_mem k lr = false) ->
  add_required self h record lr fields = Ok lr' ->
  map fst lr' = map fst lr ++ ks.
Proof.
  intros Hks. revert lr.
  induction Hks as [|f k fields ks Hk Hks IH]; simpl; intros lr Hnd Hfresh Hrun.
  { simplify_eq. by rewrite app_nil_r. }
  rewrite add_field_field_key, Hk in Hrun.
  apply NoDup_cons in Hnd as [Hnotin Hnd].
  rewrite (IH _ Hnd) with (2 := Hrun).
  - rewrite od_keys_set, Hfresh by (by left). by rewrite <- app_assoc.
  - intros k' Hin. rewrite od_mem_set, Hfresh by (by right).
    rewrite bool_decide_eq_false_2; [done|]. by intros ->.
Qed.

Lemma merge_keys_extend record target reserved :
  exists rest,
    map fst (merge_record_extra record target reserved)
      = map fst target ++ rest.
Proof.
  revert target. induction record as [|[k v] record IH]; intros target.
  { exists []. by rewrite app_nil_r. }
  rewrite merge_record_extra_cons.
  destruct (skipped reserved k); [apply IH|].
  destruct (IH (od_set k v target)) as [rest ->]. rewrite od_keys_set.
  eexists. by rewrite <- app_assoc.
Qed.

(** X9.  The output object begins with the keys of the parsed template
    fields, in the order of the template (each under its rename-map entry,
    if it has one); static fields, message fields, extra attributes and the
    timestamp follow. *)
Theorem template_keys_first `{Host} self h record md ks :
  Forall2 (fun f k => field_key self h f = Ok k) (_required_fields self) ks ->
  NoDup ks ->
  is_Ok (injected_timestamp self h record) = true ->
  exists out rest,
    add_fields self h [] record md = Ok out /\
    map fst out = ks ++ rest.
Proof.
  intros Hks Hnd Hinj.
  assert (fields_storable self h = true) as Hst.
  { unfold fields_storable. clear -Hks.
    induction Hks as [|f k fields ks Hk _ IH]; simpl; [done|].
    by rewrite Hk. }
  pose proof (add_fields_Ok self h [] record md) as Hok.
  rewrite Hst, Hinj in Hok.
  destruct (add_fields self h [] record md) as [out|] eqn:Hrun; [|done].
  exists out. revert Hrun. unfold add_fields.
  destruct (add_required _ _ _ _ _) as [lr1|] eqn:Hreq; [|done].
  apply (add_required_keys _ _ _ _ ks) in Hreq; [|done..].
  simpl in Hreq.
  destruct (od_keys_update lr1 (deref h (static_fields self))) as [r2 H2].
  destruct (od_keys_update (od_update lr1 (deref h (static_fields self)))
              (deref h md)) as [r3 H3].
  destruct (merge_keys_extend record
              (od_update (od_update lr1 (deref h (static_fields self)))
                 (deref h md)) (_skip_fields self)) as [r4 H4].
  rewrite H3, H2, Hreq in H4.
  destruct (timestamp_key self h) as [tk|].
  - destruct (getattr record "created") as [created|]; [|done].
    destruct (fromtimestamp_utc created) as [dt|]; [|done].
    intros [= <-]. rewrite od_keys_set, H4. eexists.
    by rewrite <- !app_assoc.
  - intros [= <-]. rewrite H4. eexists. by rewrite <- !app_assoc.
Qed.

Lemma template_keys_first_witness :
  exists self h out rest,
    __init__ (H := Example.host) Example.rename_kwargs
      (Example.rename_heap "severity") = (Ok self, h) /\
    add_fields (H := Example.host) self h []
      (Example.record_with_extra "user" (VInt 7)) 4%positive = Ok out /\
    map fst out = [KStr "severity"; KStr "message"] ++ rest.
Proof.
  run_init Example.host Example.rename_kwargs (Example.rename_heap "severity").
  match type of Hinit with
  | _ = (Ok ?self, ?h) =>
      exists self, h;
      destruct (template_keys_first (H := Example.host) self h
                  (Example.record_with_extra "user" (VInt 7)) 4%positive
                  [KStr "severity"; KStr "message"])
        as (out & rest & Hrun & Hkeys)
  end.
  - repeat constructor.
  - apply (NoDup_cons_2 _ _); [|apply NoDup_singleton].
    intros Hin. apply list_elem_of_singleton in Hin. discriminate Hin.
  - reflexivity.
  - exists out, rest. split; [exact Hinit|]. split; [exact Hrun|exact Hkeys].
Defined.

(** ** Soundness of the template scan *)

Lemma strip_prefix_sound p s r : strip_prefix p s = Some r -> s = p ++ r.
Proof.
  revert s. induction p as [|a p IH]; intros [|b s]; simpl; try done.
  - by intros [= <-].
  - by intros [= <-].
  - destruct (Ascii.eqb a b) eqn:Hab; [|done].
    apply Ascii.eqb_eq in Hab as ->. intros Hs. by rewrite (IH _ Hs).
Qed.

Lemma lazy_group_sound close s g :
  lazy_group close s = Some g ->
  (exists rest, s = g ++ close :: rest) /\ group_ok close g.
Proof.
  revert g. induction s as [|c s IH]; intros g; [done|]. simpl.
  destruct (Ascii.eqb c newline) eqn:Hnl; [done|].
  destruct s as [|d s]; [done|].
  destruct (Ascii.eqb d close) eqn:Hd.
  - apply Ascii.eqb_eq in Hd as ->. intros [= <-]. split; [by exists s|].
    split; [done|]. simpl. by rewrite Hnl.
  - destruct (lazy_group close (d :: s)) as [g'|] eqn:Hg'; [|done].
    intros [= <-]. destruct (IH g' eq_refl) as ((rest & Hs) & Hne & Hline & Hcl).
    split; [exists rest; simpl; by rewrite Hs|].
    split; [done|]. split; [simpl; by rewrite Hnl|].
    destruct g' as [|d' g']; [done|]. injection Hs as <- _.
    simpl in *. by rewrite Hd.
Qed.

Lemma match_at_sound pat s g :
  match_at pat s = Some g ->
  (exists rest, s = placeholder pat g ++ rest) /\ group_ok (pat_close pat) g.
Proof.
  unfold match_at, placeholder.
  destruct (strip_prefix (pat_open pat) s) as [r|] eqn:Hr; [|done].
  apply strip_prefix_sound in Hr as ->. intros Hg.
  apply lazy_group_sound in Hg as ((rest & ->) & Hok). split; [|done].
  exists rest. by rewrite <- !app_assoc.
Qed.

Lemma findall_from_sound pat skip s g :
  g ∈ findall_from pat skip s ->
  (exists pre post, s = pre ++ placeholder pat g ++ post) /\
  group_ok (pat_close pat) g.
Proof.
  revert skip. induction s as [|c s IH]; intros skip; simpl.
  { intros Hin. by apply elem_of_nil in Hin. }
  assert (forall k, g ∈ findall_from pat k s ->
            (exists pre post, c :: s = pre ++ placeholder pat g ++ post) /\
            group_ok (pat_close pat) g) as Hlater.
  { intros k Hin. destruct (IH k Hin) as ((pre & post & ->) & Hok).
    split; [|done]. by exists (c :: pre), post. }
  destruct skip as [|k]; [|apply Hlater].
  destruct (match_at pat (c :: s)) as [g0|] eqn:Hm; [|apply Hlater].
  intros Hin. apply elem_of_cons in Hin as [->|Hin]; [|by eapply Hlater].
  apply match_at_sound in Hm as ((rest & ->) & Hok). split; [|done].
  by exists [], rest.
Qed.

Lemma string_of_list_ascii_inj_nil g :
  string_of_list_ascii g = "" -> g = [].
Proof. by destruct g. Qed.

(** X10.  Every field [parse] returns stands in the template between the
    delimiters of the style; it is not empty, holds no line break, and holds
    the closing delimiter at most as its first character. *)
Theorem parse_sound self fields f :
  parse self = Ok fields ->
  f ∈ fields ->
  exists fmt pat pre post,
    _fmt self = Some fmt /\
    style_pattern (_style self) = Some pat /\
    list_ascii_of_string fmt
      = pre ++ placeholder pat (list_ascii_of_string f) ++ post /\
    f <> "" /\
    group_ok (pat_close pat) (list_ascii_of_string f).
Proof.
  intros Hparse Hf.
  destruct (style_pattern (_style self)) as [pat|] eqn:Hpat;
    [|unfold parse in Hparse; by destruct (_style self)].
  rewrite (parse_style_pattern _ _ Hpat) in Hparse.
  destruct (_fmt self) as [fmt|]; simplify_eq;
    [|by apply elem_of_nil in Hf].
  destruct (String.eqb fmt ""); simplify_eq; [by apply elem_of_nil in Hf|].
  unfold findall in Hf. apply list_elem_of_fmap in Hf as (g & -> & Hg).
  apply findall_from_sound in Hg as ((pre & post & Hs) & Hok).
  exists fmt, pat, pre, post.
  rewrite list_ascii_of_string_of_list_ascii.
  repeat split; try done; try apply Hok.
  intros Hnil. apply string_of_list_ascii_inj_nil in Hnil.
  by destruct Hok as [Hne _].
Qed.

Lemma parse_sound_witness :
  exists fmt pat pre post,
    _fmt (Example.formatter_of PercentStyle (Some "at %(asctime)s: %(msg)s"))
      = Some fmt /\
    style_pattern PercentStyle = Some pat /\
    list_ascii_of_string fmt
      = pre ++ placeholder pat (list_ascii_of_string "msg") ++ post /\
    "msg" <> "" /\
    group_ok (pat_close pat) (list_ascii_of_string "msg").
Proof.
  apply (parse_sound
           (Example.formatter_of PercentStyle (Some "at %(asctime)s: %(msg)s"))
           ["asctime"; "msg"] "msg").
  - reflexivity.
  - apply elem_of_cons. right. apply elem_of_cons. by left.
Defined.

(** X11.  A template in which the closing delimiter of the style does not
    occur has no fields; this holds for a [$]-style template that writes its
    names without braces. *)
Theorem parse_without_closing_delimiter self pat fmt :
  style_pattern (_style self) = Some pat ->
  _fmt self = Some fmt ->
  forallb (fun c => negb (Ascii.eqb c (pat_close pat)))
    (list_ascii_of_string fmt) = true ->
  parse self = Ok [].
Proof.
  intros Hpat Hfmt Hfree. rewrite (parse_style_pattern _ _ Hpat), Hfmt.
  destruct (String.eqb fmt ""); [done|]. f_equal. unfold findall.
  destruct (findall_from pat 0 (list_ascii_of_string fmt)) as [|g gs] eqn:Hall;
    [done|].
  assert (g ∈ findall_from pat 0 (list_ascii_of_string fmt)) as Hg.
  { rewrite Hall. by left. }
  apply findall_from_sound in Hg as ((pre & post & Hs) & _).
  rewrite Hs in Hfree. unfold placeholder in Hfree.
  rewrite !forallb_app in Hfree. simpl in Hfree.
  rewrite Ascii.eqb_refl in Hfree. simpl in Hfree.
  rewrite !andb_false_r, ?andb_false_l in Hfree. done.
Qed.

Lemma parse_without_closing_delimiter_witness :
  parse (Example.formatter_of StringTemplateStyle
           (Some "$levelname $message")) = Ok [].
Proof.
  eapply parse_without_closing_delimiter; reflexivity.
Defined.

(** ** More on the value encoder *)

Lemma space_prefix_app s rest tl :
  space_prefix s = Some rest -> space_prefix (s ++ tl) = Some (rest ++ tl).
Proof.
  intros Hcut. destruct s as [|a s]; simpl in *; [done|].
  destruct (is_space a); [by injection Hcut as <-|].
  destruct s as [|b s]; simpl in *; [done|].
  destruct (is_space2 a b); [by injection Hcut as <-|].
  destruct s as [|c s]; simpl in *; [done|].
  destruct (is_space3 a b c); [by injection Hcut as <-|done].
Qed.

(** What [space_prefix] cuts off is not empty. *)
Lemma space_prefix_cut s rest :
  space_prefix s = Some rest ->
  exists w, s = w ++ rest /\ w <> [] /\ space_prefix w = Some [].
Proof.
  unfold space_prefix. destruct s as [|a s]; [done|].
  destruct (is_space a) eqn:Ha.
  { intros [= <-]. exists [a]. simpl. by rewrite Ha. }
  destruct s as [|b s]; [done|]. destruct (is_space2 a b) eqn:Hb.
  { intros [= <-]. exists [a; b]. simpl. by rewrite Ha, Hb. }
  destruct s as [|c s]; [done|]. destruct (is_space3 a b c) eqn:Hc; [|done].
  intros [= <-]. exists [a; b; c]. simpl. by rewrite Ha, Hb, Hc.
Qed.

(** A white-space character at the end, read back to front, is one read
    from the front. *)
Lemma space_suffix_cut s rest :
  space_suffix s = Some rest ->
  exists w, rev s = rev rest ++ w /\ w <> [] /\ space_prefix w = Some [].
Proof.
  unfold space_suffix. destruct s as [|c s]; [done|].
  destruct (is_space c) eqn:Hc1.
  { intros [= <-]. exists [c]. simpl. by rewrite Hc1. }
  destruct s as [|b s]; [done|]. destruct (is_space2 b c) eqn:Hb.
  { intros [= <-]. exists [b; c]. simpl. rewrite <- app_assoc. simpl.
    assert (is_space b = false) as ->.
    { unfold is_space2 in Hb. unfold is_space.
      apply andb_true_iff in Hb as [Hb _]. apply Nat.eqb_eq in Hb.
      by rewrite Hb. }
    by rewrite Hb. }
  destruct s as [|a s]; [done|]. destruct (is_space3 a b c) eqn:Ha; [|done].
  intros [= <-]. exists [a; b; c]. simpl. rewrite <- !app_assoc. simpl.
  assert (is_space a = false /\ is_space2 a b = false) as [-> ->].
  { unfold is_space3 in Ha. unfold is_space, is_space2.
    repeat (apply orb_true_iff in Ha as [Ha | Ha]);
      repeat (apply andb_true_iff in Ha as [Ha ?]);
      apply Nat.eqb_eq in Ha; by rewrite Ha. }
  by rewrite Ha.
Qed.

Lemma blank_app s1 s2 : blank s1 -> blank s2 -> blank (s1 ++ s2).
Proof.
  induction 1 as [|s rest Hcut _ IH]; intros Hs2; [done|].
  eapply blank_cons; [by apply space_prefix_app|by apply IH].
Qed.

Lemma blank_cut w : space_prefix w = Some [] -> blank w.
Proof. intros Hw. eapply blank_cons; [done|constructor]. Qed.

Lemma strip_head_prefix n s :
  length s <= n ->
  exists pre,
    s = pre ++ strip_head space_prefix n s /\
    blank pre /\
    space_prefix (strip_head space_prefix n s) = None.
Proof.
  revert s. induction n as [|n IH]; intros s Hlen; simpl.
  { destruct s; [|simpl in Hlen; lia]. exists []. split; [done|]. split; [constructor|done]. }
  destruct (space_prefix s) as [rest|] eqn:Hcut.
  - destruct (space_prefix_cut _ _ Hcut) as (w & -> & Hne & Hw).
    destruct (IH rest) as (pre & Hrest & Hpre & Hnone).
    { rewrite length_app in Hlen. destruct w; [done|]. simpl in Hlen. lia. }
    exists (w ++ pre). split; [by rewrite <- app_assoc, <- Hrest|].
    split; [|done]. apply blank_app; [by apply blank_cut|done].
  - exists []. split; [done|]. split; [constructor|done].
Qed.

Lemma strip_head_suffix n s :
  length s <= n ->
  exists post,
    rev s = rev (strip_head space_suffix n s) ++ post /\
    blank post /\
    space_suffix (strip_head space_suffix n s) = None.
Proof.
  revert s. induction n as [|n IH]; intros s Hlen; simpl.
  { destruct s; [|simpl in Hlen; lia]. exists []. split; [done|]. split; [constructor|done]. }
  destruct (space_suffix s) as [rest|] eqn:Hcut.
  - destruct (space_suffix_cut _ _ Hcut) as (w & Hs & Hne & Hw).
    destruct (IH rest) as (post & Hrest & Hpost & Hnone).
    { apply (f_equal (@length ascii)) in Hs.
      rewrite length_app, !length_rev in Hs. destruct w; [done|].
      simpl in Hs. lia. }
    exists (post ++ w). split; [by rewrite Hs, Hrest, <- app_assoc|].
    split; [|done]. apply blank_app; [done|by apply blank_cut].
  - exists []. split; [by rewrite app_nil_r|]. by split; [constructor|].
Qed.

(** [strip] removes white-space characters at both ends and nothing else. *)
Lemma strip_spec s :
  exists pre post,
    list_ascii_of_string s = pre ++ list_ascii_of_string (strip s) ++ post /\
    blank pre /\
    blank post /\
    space_prefix (list_ascii_of_string (strip s)) = None /\
    space_suffix (rev (list_ascii_of_string (strip s))) = None.
Proof.
  unfold strip. rewrite list_ascii_of_string_of_list_ascii.
  destruct (strip_head_prefix (length (list_ascii_of_string s))
              (list_ascii_of_string s)) as (pre & Hl & Hpre & Hhead); [done|].
  fold (lstrip (list_ascii_of_string s)) in Hl, Hhead.
  set (a := lstrip (list_ascii_of_string s)) in *.
  destruct (strip_head_suffix (length (rev a)) (rev a))
    as (post & Ha & Hpost & Hlast); [done|].
  rewrite rev_involutive, length_rev in Ha. rewrite length_rev in Hlast.
  fold (rstrip a) in Ha.
  exists pre, post. split; [by rewrite <- Ha|]. split; [done|].
  split; [done|]. split; [|unfold rstrip; by rewrite rev_involutive].
  destruct (space_prefix (rstrip a)) as [rest|] eqn:Hcut; [|done].
  apply (space_prefix_app _ _ post) in Hcut. rewrite <- Ha in Hcut.
  by rewrite Hcut in Hhead.
Qed.

(** X12.  For a traceback the module's encoder returns the joined lines of
    [traceback.format_tb] without the white space at either end: the text
    neither starts nor ends with a white-space character, and what was cut
    off consists of white-space characters only (those of Unicode, in
    their UTF-8 encoding). *)
Theorem default_traceback_trimmed `{Host} h tb :
  exists text pre post,
    JsonEncoder.default h (VTraceback tb) = Ok (VStr text) /\
    list_ascii_of_string (join (format_tb tb))
      = pre ++ list_ascii_of_string text ++ post /\
    blank pre /\
    blank post /\
    space_prefix (list_ascii_of_string text) = None /\
    space_suffix (rev (list_ascii_of_string text)) = None.
Proof.
  destruct (strip_spec (join (format_tb tb))) as (pre & post & Hspec).
  by exists (strip (join (format_tb tb))), pre, post.
Qed.



Lemma init_module_encoder `{Host} kw h self h' :
  __init__ kw h = (Ok self, h') ->
  kw_json_default kw = None ->
  kw_json_encoder kw = None ->
  effective_default (json_default self) (json_encoder self)
    = JsonEncoder.default.
Proof.
  unfold __init__. intros Hinit Hd He.
  destruct (_str_to_fn import_hook _) as [jd|] eqn:Hjd; [|done].
  destruct (_str_to_fn import_encoder _) as [je|] eqn:Hje; [|done].
  rewrite Hd in Hjd. rewrite He in Hje. simpl in Hjd, Hje. simplify_eq.
  destruct (_str_to_fn import_serializer _) as [js|]; [|done].
  destruct (match kw_rename_fields kw with Some _ => _ | None => _ end)
    as [rn h1].
  destruct (match kw_static_fields kw with Some _ => _ | None => _ end)
    as [sf h2].
  destruct (Formatter_init _ _ _) as [[st f]|]; [|done].
  destruct (parse _) as [required|]; [|done].
  by injection Hinit as <- <-.
Qed.

(** X14.  A formatter constructed without [json_default] and
    [json_encoder] serializes the datetime that [add_fields] injects as its
    ISO-8601 text: the standard encoder hands the object to the module's
    hook, and encodes the string that comes back. *)
Theorem timestamp_serialized `{Host} kw h self h' n hp markers dt :
  __init__ kw h = (Ok self, h') ->
  kw_json_default kw = None ->
  kw_json_encoder kw = None ->
  encode_value (S (S n))
    (effective_default (json_default self) (json_encoder self))
    hp markers (VTemporal dt) = Ok (JStr (isoformat dt)).
Proof.
  intros Hinit Hd He. by rewrite (init_module_encoder _ _ _ _ Hinit Hd He).
Qed.

Lemma timestamp_serialized_witness :
  exists self h,
    __init__ (H := Example.host) Example.service_kwargs Example.service_heap
      = (Ok self, h) /\
    encode_value (H := Example.host) 2
      (effective_default (H := Example.host)
         (json_default self) (json_encoder self))
      h [] (VTemporal {| isoformat := "2001-09-09T01:46:40+00:00" |})
      = Ok (JStr "2001-09-09T01:46:40+00:00").
Proof.
  run_init Example.host Example.service_kwargs Example.service_heap.
  match type of Hinit with
  | _ = (Ok ?self, ?h) =>
      exists self, h; split; [exact Hinit|];
      exact (timestamp_serialized (H := Example.host) _ _ self h 0%nat h []
               {| isoformat := "2001-09-09T01:46:40+00:00" |}
               Hinit eq_refl eq_refl)
  end.
Defined.

(** ** More on [format] *)

(** Lines 135 to 140 for a message that is not a dictionary. *)
Lemma message_fields_text `{Host} st v m :
  getattr (st_record st) "msg" = Ok v ->
  (forall l, v <> VDict l) ->
  getMessage (alloc [] (st_heap st)).2 (st_record st) = Ok m ->
  message_fields st =
    (Ok (alloc [] (st_heap st)).1,
     {| st_self := st_self st;
        st_record := od_set (KStr "message") (VStr m) (st_record st);
        st_heap := (alloc [] (st_heap st)).2 |}).
Proof.
  unfold message_fields, bindM, new_dict, get_attr, liftM, set_attr, retM.
  destruct (alloc [] (st_heap st)) as [l0 h1]. cbn [fst snd].
  intros Hmsg Hv Hm. simpl. rewrite Hmsg.
  destruct v; simpl; try (by rewrite Hm). by destruct (Hv l).
Qed.

Lemma message_fields_error `{Host} st v e :
  getattr (st_record st) "msg" = Ok v ->
  (forall l, v <> VDict l) ->
  getMessage (alloc [] (st_heap st)).2 (st_record st) = Raise e ->
  message_fields st =
    (Raise e,
     {| st_self := st_self st;
        st_record := st_record st;
        st_heap := (alloc [] (st_heap st)).2 |}).
Proof.
  unfold message_fields, bindM, new_dict, get_attr, liftM, set_attr, retM.
  destruct (alloc [] (st_heap st)) as [l0 h1]. cbn [fst snd].
  intros Hmsg Hv Hm. simpl. rewrite Hmsg.
  destruct v; simpl; try (by rewrite Hm). by destruct (Hv l).
Qed.

(** X15.  When the message is not a dictionary and formatting it fails,
    [format] raises that error at once: the record keeps its attributes
    ([message] is not set), and no dictionary that exists is changed. *)
Theorem format_getMessage_error `{Host} st v e :
  getattr (st_record st) "msg" = Ok v ->
  (forall l, v <> VDict l) ->
  getMessage (alloc [] (st_heap st)).2 (st_record st) = Raise e ->
  exists st',
    format st = (Raise e, st') /\
    st_self st' = st_self st /\
    st_record st' = st_record st /\
    forall l, is_Some (st_heap st !! l) -> st_heap st' !! l = st_heap st !! l.
Proof.
  intros Hmsg Hv Hm. eexists.
  unfold format, format_log_record, bindM.
  rewrite (message_fields_error st v e Hmsg Hv Hm).
  split; [done|]. split; [done|]. split; [done|].
  apply alloc_spec.
Qed.

Lemma format_getMessage_error_witness :
  exists st',
    format (H := host_with_getMessage (fun _ _ => Raise TypeError))
      {| st_self := Example.formatter_of PercentStyle (Some "%(message)s");
         st_record := Example.record_of (VStr "%d items") VNone [];
         st_heap := ∅ |} = (Raise TypeError, st') /\
    st_record st' = Example.record_of (VStr "%d items") VNone [].
Proof.
  edestruct (format_getMessage_error
               (H := host_with_getMessage (fun _ _ => Raise TypeError))
               {| st_self := Example.formatter_of PercentStyle
                               (Some "%(message)s");
                  st_record := Example.record_of (VStr "%d items") VNone [];
                  st_heap := ∅ |} (VStr "%d items") TypeError)
    as (st' & Hrun & _ & Hrec & _).
  - reflexivity.
  - intros l. discriminate.
  - reflexivity.
  - exists st'. split; [exact Hrun|exact Hrec].
Defined.

(** The steps of [format_log_record] behind the message fields write no
    attribute of the record other than [asctime]. *)
Lemma keeps_after_message_fields `{Host} md :
  keeps [KStr "asctime"] enriched_keys md
    (bindM format_asctime (fun _ =>
     bindM (add_exc_info md) (fun _ =>
     bindM (add_exc_text md) (fun _ =>
     bindM (add_stack_info md) (fun _ =>
     bindM (liftM (fun st =>
              add_fields (st_self st) (st_heap st) [] (st_record st) md))
       (fun log_record => retM (process_log_record log_record))))))).
Proof.
  unfold format_asctime, add_exc_info, add_exc_text, add_stack_info,
    enriched_keys.
  keeps_steps.
Qed.

(** The steps behind [format_asctime] write no attribute of the record. *)
Lemma keeps_after_asctime `{Host} md :
  keeps [] enriched_keys md
    (bindM (add_exc_info md) (fun _ =>
     bindM (add_exc_text md) (fun _ =>
     bindM (add_stack_info md) (fun _ =>
     bindM (liftM (fun st =>
              add_fields (st_self st) (st_heap st) [] (st_record st) md))
       (fun log_record => retM (process_log_record log_record)))))).
Proof.
  unfold add_exc_info, add_exc_text, add_stack_info, enriched_keys.
  keeps_steps.
Qed.

Lemma stored_under_deref self h1 h2 k fields :
  deref h1 (rename_fields self) = deref h2 (rename_fields self) ->
  last_field (stored_under self h1 k) fields
    = last_field (stored_under self h2 k) fields.
Proof. intros Hrn. unfold stored_under, field_key. by rewrite Hrn. Qed.

(** X16.  When the message is not a dictionary, [format] stores the
    formatted text as the record's [message] attribute and gathers the
    message fields in a dictionary of its own, so that no dictionary that
    exists is changed; the output object has the text under [message] when
    the template names [message] and nothing else claims that key. *)
Theorem text_message_handling `{Host} st md injected v m :
  ready st md injected ->
  getattr (st_record st) "msg" = Ok v ->
  (forall l, v <> VDict l) ->
  getMessage (alloc [] (st_heap st)).2 (st_record st) = Ok m ->
  exists out st',
    format_log_record st = (Ok out, st') /\
    od_get (KStr "message") (st_record st') = Some (VStr m) /\
    (forall l, is_Some (st_heap st !! l) ->
       st_heap st' !! l = st_heap st !! l) /\
    (last_field (stored_under (st_self st) (st_heap st) (KStr "message"))
       (_required_fields (st_self st)) = Some "message" ->
     skipped (_skip_fields (st_self st)) (KStr "message") = true ->
     od_get (KStr "message")
       (deref (st_heap st) (static_fields (st_self st))) = None ->
     (forall tv, injected <> Some (KStr "message", tv)) ->
     od_get (KStr "message") out = Some (VStr m)).
Proof.
  intros Hready Hmsg Hv Hm.
  destruct (format_log_record_run st md injected Hready)
    as (out & st' & _ & _ & Hrun & _ & _ & Hframe & _ & Hout & _).
  destruct Hready as (Hmd & _ & _ & Hrn & Hrn_md & Hsf & Hsf_md & _).
  unfold message_dict_of in Hmd. rewrite Hmsg in Hmd.
  assert (md = (alloc [] (st_heap st)).1) as Hfresh.
  { destruct v; try apply Hmd. by destruct (Hv l). }
  clear Hmd.
  destruct (alloc_spec (st_heap st)) as (Hnew & _ & Hold).
  rewrite <- Hfresh in Hnew.
  assert (forall l, is_Some (st_heap st !! l) ->
            st_heap st' !! l = st_heap st !! l) as Hheap.
  { intros l Hl. destruct Hframe as (_ & _ & _ & _ & Hsame & _).
    apply Hsame; [|done]. intros ->. rewrite Hnew in Hl. by destruct Hl. }
  assert (od_get (KStr "message") (st_record st') = Some (VStr m)) as Hmessage.
  { pose proof Hrun as Hrun'. unfold format_log_record, bindM at 1 in Hrun'.
    rewrite (message_fields_text st v m Hmsg Hv Hm) in Hrun'.
    match type of Hrun' with
    | ?k ?st1 = _ =>
        pose proof (keeps_after_message_fields (alloc [] (st_heap st)).1 st1)
          as (_ & Hrec & _)
    end.
    rewrite Hrun' in Hrec. cbn [snd st_record] in Hrec.
    rewrite Hrec; [apply od_get_set_eq|].
    intros Hin. apply list_elem_of_singleton in Hin. discriminate Hin. }
  exists out, st'. split; [done|]. split; [done|]. split; [done|].
  intros Hlast Hskip Hstatic Hts. rewrite Hout.
  destruct Hframe as (_ & _ & _ & _ & _ & Hkeys & _).
  apply by_precedence_template.
  - destruct injected as [[tk tv]|]; [|done]. intros ->. by destruct (Hts tv).
  - unfold extra_binding. by rewrite Hskip.
  - rewrite Hkeys.
    + unfold deref. by rewrite Hnew.
    + unfold enriched_keys. intros Hin.
      apply elem_of_cons in Hin as [? | Hin]; [done|].
      apply list_elem_of_singleton in Hin. discriminate Hin.
  - rewrite (deref_lookup _ (st_heap st)); [done|]. by apply Hheap.
  - unfold template_binding.
    rewrite (stored_under_deref _ _ (st_heap st)), Hlast.
    + unfold dict_get. by rewrite Hmessage.
    + apply deref_lookup. by apply Hheap.
Qed.

(** A text message with one extra attribute, formatted with the template
    [%(levelname)s %(message)s]. *)
Lemma text_message_handling_witness :
  exists self h out st',
    __init__ (H := Example.host) Example.plain_kwargs ∅ = (Ok self, h) /\
    format_log_record (H := Example.host)
      {| st_self := self;
         st_record := Example.record_of (VStr "started") VNone
                        [(KStr "user", VInt 7)];
         st_heap := h |} = (Ok out, st') /\
    od_get (KStr "message") (st_record st') = Some (VStr "started") /\
    od_get (KStr "message") out = Some (VStr "started").
Proof.
  run_init Example.host Example.plain_kwargs (∅ : heap).
  match type of Hinit with
  | _ = (Ok ?self, ?h) =>
      exists self, h;
      destruct (text_message_handling (H := Example.host)
                  {| st_self := self;
                     st_record := Example.record_of (VStr "started") VNone
                                    [(KStr "user", VInt 7)];
                     st_heap := h |} (alloc [] h).1 None
                  (VStr "started") "started")
        as (out & st' & Hrun & Hmessage & _ & Hout);
      [prove_ready|reflexivity|intros ?; discriminate|reflexivity|]
  end.
  exists out, st'. split; [exact Hinit|]. split; [exact Hrun|].
  split; [exact Hmessage|]. apply Hout.
  - vm_compute; reflexivity.
  - vm_compute; reflexivity.
  - vm_compute; reflexivity.
  - intros tv. discriminate.
Defined.

Lemma format_asctime_skip `{Host} st :
  "asctime" ∉ _required_fields (st_self st) ->
  format_asctime st = (Ok tt, st).
Proof.
  intros Hno. unfold format_asctime, bindM, get_self. simpl.
  by rewrite bool_decide_eq_false_2.
Qed.

Lemma format_asctime_set `{Host} st :
  "asctime" ∈ _required_fields (st_self st) ->
  format_asctime st =
    (Ok tt,
     {| st_self := st_self st;
        st_record := od_set (KStr "asctime")
                       (VStr (formatTime (st_record st) (datefmt (st_self st))))
                       (st_record st);
        st_heap := st_heap st |}).
Proof.
  intros Hin. unfold format_asctime, bindM, get_self. simpl.
  by rewrite bool_decide_eq_true_2.
Qed.

(** X17.  Unless the template names [asctime], [format] computes no time
    text: [message] is the only attribute of the record it writes. *)
Theorem asctime_not_written `{Host} st k :
  "asctime" ∉ _required_fields (st_self st) ->
  k <> KStr "message" ->
  od_get k (st_record (format st).2) = od_get k (st_record st).
Proof.
  intros Hno Hk. rewrite format_state.
  pose proof (keeps_message_fields [] (1%positive) st) as (Hself & Hrec & _).
  unfold format_log_record, bindM at 1.
  destruct (message_fields st) as [[md|e] st1]; cbn [snd] in *.
  - unfold bindM at 1. rewrite format_asctime_skip by (by rewrite Hself).
    pose proof (keeps_after_asctime md st1) as (_ & Hrec' & _).
    rewrite Hrec' by apply not_elem_of_nil. apply Hrec.
    intros Hin. apply list_elem_of_singleton in Hin. done.
  - apply Hrec. intros Hin. apply list_elem_of_singleton in Hin. done.
Qed.

Lemma asctime_not_written_witness :
  od_get (KStr "asctime")
    (st_record
       (format (H := Example.host)
          {| st_self := Example.formatter_of PercentStyle (Some "%(message)s");
             st_record := Example.record_of (VStr "started") VNone [];
             st_heap := ∅ |}).2) = None.
Proof.
  rewrite asctime_not_written.
  - reflexivity.
  - apply not_elem_of_nil.
  - discriminate.
Defined.

(** X18.  When the template names [asctime], the record's [asctime]
    attribute after [format] is the time text for the record as the message
    step left it, that is, with its [message] attribute already set. *)
Theorem asctime_written_after_message `{Host} st md st1 :
  "asctime" ∈ _required_fields (st_self st) ->
  message_fields st = (Ok md, st1) ->
  od_get (KStr "asctime") (st_record (format st).2)
    = Some (VStr (formatTime (st_record st1) (datefmt (st_self st)))) /\
  exists m, st_record st1 = od_set (KStr "message") m (st_record st).
Proof.
  intros Hin Hrun. rewrite format_state.
  pose proof (keeps_message_fields [] (1%positive) st) as (Hself & _).
  unfold format_log_record, bindM at 1. rewrite Hrun in *. cbn [snd] in *.
  split.
  - unfold bindM at 1. rewrite format_asctime_set by (by rewrite Hself).
    match goal with
    | |- od_get _ (st_record (?k ?st2).2) = _ =>
        pose proof (keeps_after_asctime md st2) as (_ & Hrec' & _)
    end.
    rewrite Hrec' by apply not_elem_of_nil. cbn [st_record].
    by rewrite od_get_set_eq, Hself.
  - revert Hrun.
    unfold message_fields, bindM, new_dict, get_attr, liftM, set_attr, retM.
    destruct (alloc [] (st_heap st)) as [l0 h1].
    cbn [st_record st_heap st_self].
    destruct (getattr (st_record st) "msg") as [msg|]; [|done].
    destruct msg;
      try (destruct (getMessage _ _) as [text|]; [|done];
           intros [= <- <-]; by eexists).
    intros [= <- <-]. by eexists.
Qed.

Lemma asctime_written_after_message_witness :
  od_get (KStr "asctime")
    (st_record
       (format (H := Example.host)
          {| st_self :=
               with_fields
                 (Example.formatter_of PercentStyle
                    (Some "%(asctime)s %(message)s"))
                 ["asctime"; "message"] (od_of_names RESERVED_ATTRS);
             st_record := Example.record_of (VStr "started") VNone [];
             st_heap := ∅ |}).2)
    = Some (VStr "2001-09-09 01:46:40,000").
Proof.
  edestruct (asctime_written_after_message (H := Example.host)
               {| st_self :=
                    with_fields
                      (Example.formatter_of PercentStyle
                         (Some "%(asctime)s %(message)s"))
                      ["asctime"; "message"] (od_of_names RESERVED_ATTRS);
                  st_record := Example.record_of (VStr "started") VNone [];
                  st_heap := ∅ |}) as [Hasctime _].
  - apply elem_of_cons. by left.
  - vm_compute. reflexivity.
  - exact Hasctime.
Defined.


(** ** Serialization *)

Lemma encode_members_keys `{Host} (encode : value -> result json)
    (obj : pydict) members :
  mapM (fun kv =>
          name ← json_key kv.1; j ← encode kv.2; mret (name, j)) obj
    = Ok members ->
  Forall2 (fun k name => json_key k = Ok name)
    (map fst obj) (map fst members).
Proof.
  revert members. induction obj as [|[k v] obj IH]; intros members.
  { intros [= <-]. constructor. }
  cbn [mapM]. unfold mbind, mret, result_bind, result_ret. cbn [fst snd].
  destruct (json_key k) as [name|] eqn:Hname; [|done].
  destruct (encode v) as [j|]; [|done].
  destruct (mapM _ obj) as [rest|]; [|done].
  intros [= <-]. simpl. constructor; [done|]. by apply IH.
Qed.

Lemma encode_members_Ok `{Host} (encode : value -> result json)
    (obj : pydict) :
  Forall (fun kv => is_Ok (json_key kv.1) = true
                    /\ is_Ok (encode kv.2) = true) obj ->
  is_Ok (mapM (fun kv =>
                 name ← json_key kv.1; j ← encode kv.2; mret (name, j)) obj)
    = true.
Proof.
  induction 1 as [|[k v] obj [Hk Hv] _ IH]; [done|].
  cbn [mapM]. unfold mbind, mret, result_bind, result_ret in *.
  cbn [fst snd] in *.
  destruct (json_key k) as [name|]; [|done].
  destruct (encode v) as [j|]; [|done].
  by destruct (mapM _ obj).
Qed.

(** The member names of string keys are the strings. *)
Lemma string_keys_names `{Host} names members :
  Forall2 (fun k name => json_key k = Ok name) (map KStr names) members ->
  members = names.
Proof.
  revert members. induction names as [|s names IH]; intros members Hall;
    inversion Hall as [|k name ks ms Hname Hrest]; subst; [done|].
  simpl in Hname. injection Hname as <-. f_equal. by apply IH.
Qed.

(** X20.  With [json.dumps] as the serializer and no encoder class of the
    caller's, the text [format] returns for a log record whose keys are
    strings is the prefix followed by one JSON object; the object has one
    member for each key of the log record, named by the key, in the record's
    order.  (An encoder class of the caller's may replace the encoding as
    a whole; the embedding follows such a class through its [default] method
    only, so it is left out here.) *)
Theorem format_output_shape `{Host} st out st1 text st2 names :
  format_log_record st = (Ok out, st1) ->
  json_serializer (st_self st1) = json_dumps ->
  (forall d, json_encoder (st_self st1) <> Some (OtherEncoder d)) ->
  map fst out = map KStr names ->
  format st = (Ok text, st2) ->
  exists members,
    text = (prefix (st_self st1)
            ++ json_text (json_indent (st_self st1))
                 (json_ensure_ascii (st_self st1)) (JObj members))%string /\
    map fst members = names.
Proof.
  intros Hrun Hjs _ Hnames. unfold format, bindM, liftM. rewrite Hrun.
  unfold serialize_log_record, jsonify_log_record. rewrite Hjs.
  unfold dumps, encode_object, mbind, mret, result_bind, result_ret.
  destruct (indent_unit _) as [[]|]; [|done].
  destruct (mapM _ out) as [members|] eqn:Hmembers; [|done].
  intros [= <- <-]. exists members. split; [done|].
  apply encode_members_keys in Hmembers. rewrite Hnames in Hmembers.
  by apply string_keys_names.
Qed.

Lemma format_output_shape_witness :
  exists self h text st2 members,
    __init__ (H := Example.host) Example.rename_kwargs
      (Example.rename_heap "severity") = (Ok self, h) /\
    format (H := Example.host)
      {| st_self := self;
         st_record := Example.record_of (VStr "started") VNone
                        [(KStr "user", VInt 7)];
         st_heap := h |} = (Ok text, st2) /\
    text = (prefix self
            ++ json_text (Host := Example.host) (json_indent self)
                 (json_ensure_ascii self) (JObj members))%string /\
    map fst members = ["severity"; "message"; "user"].
Proof.
  run_init Example.host Example.rename_kwargs (Example.rename_heap "severity").
  match type of Hinit with
  | _ = (Ok ?self, ?h) =>
      pose (st := {| st_self := self;
                     st_record := Example.record_of (VStr "started") VNone
                                    [(KStr "user", VInt 7)];
                     st_heap := h |});
      pose (r := format_log_record (H := Example.host) st);
      assert (format_log_record (H := Example.host) st = r) as Hrun
        by reflexivity;
      pose (r' := format (H := Example.host) st);
      assert (format (H := Example.host) st = r') as Hfmt by reflexivity;
      vm_compute in r, r'; subst r r';
      exists self, h
  end.
  match type of Hfmt with
  | _ = (Ok ?text, ?st2) => exists text, st2
  end.
  destruct (format_output_shape (H := Example.host) _ _ _ _ _
              ["severity"; "message"; "user"] Hrun eq_refl
              (fun d => ltac:(discriminate)) eq_refl Hfmt)
    as (members & Htext & Hkeys).
  exists members. split; [exact Hinit|]. split; [exact Hfmt|].
  split; [exact Htext|exact Hkeys].
Defined.

Lemma encode_flat_value `{Host} n h markers v :
  flat_value v = true ->
  is_Ok (encode_value (S (S n)) JsonEncoder.default h markers v) = true.
Proof.
  unfold flat_value, str_fails_outside_Exception.
  destruct v; try done; simpl; unfold mbind, result_bind.
  - by intros ->.
  - destruct (obj_str o); done.
  - destruct (obj_str o) as [s|e]; [done|].
    destruct (is_Exception e); done.
Qed.


